(** * Download page of client/src/pages/home.tsx

    A shallow embedding of the [Home] component's logic: the bounded console
    log ([addConsoleLine]), input validation ([validateInput]), the download
    sequence ([handleDownload]) and [resetState], followed by the properties
    of the download orchestration that the specification states.

    Conventions.
    - A JavaScript string is a [string]; a character stands for one code unit
      in the range U+0000..U+00FF.
    - React state is a record [Page]; a state setter is an [Effect] that is
      applied to the page current at the time it runs.
    - What the browser supplies (the wall clock, the network answer) is an
      explicit argument. *)

From Stdlib Require Import String Ascii List Bool Arith NArith ZArith Lia.
From Stdlib Require Import DecimalString.
Import ListNotations.
Open Scope string_scope.

#[local] Set Warnings "-register-all".

(* ================================================================== *)
(** ** JavaScript primitives used by the page *)
(* ================================================================== *)

Module Js.

(** The three characters that the negated class of the file-name pattern
    excludes: the double quote, the semicolon and the line feed. *)
Definition dquote : ascii := Eval cbv in ascii_of_nat 34.
Definition semicolon : ascii := Eval cbv in ascii_of_nat 59.
Definition newline : ascii := Eval cbv in ascii_of_nat 10.

(** [WhiteSpace] and [LineTerminator] code units below U+0100: TAB, LF, VT,
    FF, CR, SP and NBSP. *)
Definition isWhiteSpace (c : ascii) : bool :=
  let n := nat_of_ascii c in
  (((9 <=? n) && (n <=? 13)) || (n =? 32) || (n =? 160))%nat.

(** [s.trimStart()] *)
Fixpoint trimStart (s : string) : string :=
  match s with
  | EmptyString => EmptyString
  | String c s' => if isWhiteSpace c then trimStart s' else s
  end.

(** [s.trimEnd()]: a character is kept when it is not white space or when
    something is kept after it. *)
Fixpoint trimEnd (s : string) : string :=
  match s with
  | EmptyString => EmptyString
  | String c s' =>
      match trimEnd s' with
      | EmptyString => if isWhiteSpace c then EmptyString else String c EmptyString
      | r => String c r
      end
  end.

(** [s.trim()] *)
Definition trim (s : string) : string := trimEnd (trimStart s).

(** [s.includes(search)]: [search] starts at some position of [s]. *)
Fixpoint includes (s search : string) : bool :=
  String.prefix search s
  || match s with
     | EmptyString => false
     | String _ s' => includes s' search
     end.

(** [s.slice(0, n)] for [n >= 0]. *)
Definition slice0 (n : nat) (s : string) : string := String.substring 0 n s.

(** Case mapping of the letters A-Z / a-z; the other characters are left
    alone. [toUpperCase] is only ever applied to the platform and mode
    names. *)
Definition upcase (c : ascii) : ascii :=
  let n := nat_of_ascii c in
  if ((97 <=? n) && (n <=? 122))%nat then ascii_of_nat (n - 32) else c.

Definition downcase (c : ascii) : ascii :=
  let n := nat_of_ascii c in
  if ((65 <=? n) && (n <=? 90))%nat then ascii_of_nat (n + 32) else c.

Fixpoint map_string (f : ascii -> ascii) (s : string) : string :=
  match s with
  | EmptyString => EmptyString
  | String c s' => String (f c) (map_string f s')
  end.

Definition toUpperCase : string -> string := map_string upcase.
Definition toLowerCase : string -> string := map_string downcase.

(** Decimal text of an integral Number, as a template literal prints it. *)
Definition string_of_N (n : N) : string := NilZero.string_of_uint (N.to_uint n).
Definition string_of_Z (z : Z) : string := NilZero.string_of_int (Z.to_int z).

(** [(size / 1024 / 1024).toFixed(2)] for a byte count [size].  Dividing by
    a power of two is exact, so the Number is [size / 2^20] and [toFixed(2)]
    picks the integer [n] closest to [100 * size / 2^20], the larger one on
    a tie; it prints [n / 100], a full stop and the two digits of
    [n mod 100]. *)
Definition toFixed2_MiB (size : N) : string :=
  let n := ((size * 100 + 524288) / 1048576)%N in
  string_of_N (n / 100) ++ "." ++
  string_of_N ((n mod 100) / 10) ++ string_of_N (n mod 10).

(** *** Values produced by [JSON.parse] *)

(** A Number is kept as its [ToString] text; that text is ["0"] exactly for
    the two zeros, the only falsy Numbers [JSON.parse] can produce.  The
    members of an object are in textual order. *)
Inductive Value : Type :=
| Undefined
| Null
| Bool (b : bool)
| Number (text : string)
| Str (s : string)
| Array (elements : list Value)
| Object (members : list (string * Value)).

(** [ToBoolean] *)
Definition truthy (v : Value) : bool :=
  match v with
  | Undefined | Null => false
  | Bool b => b
  | Number text => negb (text =? "0")
  | Str s => negb (s =? "")
  | Array _ | Object _ => true
  end.

(** Own property of a parsed object: a later member with the same key
    overwrites an earlier one. *)
Fixpoint own_property (members : list (string * Value)) (key : string)
  : option Value :=
  match members with
  | [] => None
  | (k, v) :: rest =>
      match own_property rest key with
      | Some v' => Some v'
      | None => if k =? key then Some v else None
      end
  end.

(** [v.message].  [None] is the TypeError raised on [null] and
    [undefined]; neither the prototypes of the primitives nor those of
    arrays and objects have a [message] property. *)
Definition get_message (v : Value) : option Value :=
  match v with
  | Undefined | Null => None
  | Object members =>
      match own_property members "message" with
      | Some m => Some m
      | None => Some Undefined
      end
  | _ => Some Undefined
  end.

(** [ToString].  [None] is the TypeError of an object that cannot be
    converted to a primitive: a parsed object that has a member named
    [toString] shadows [Object.prototype.toString] with a value that is not
    callable.  An array joins its elements with commas, [null] printing as
    the empty string. *)
Fixpoint ToString (v : Value) : option string :=
  match v with
  | Undefined => Some "undefined"
  | Null => Some "null"
  | Bool true => Some "true"
  | Bool false => Some "false"
  | Number text => Some text
  | Str s => Some s
  | Object members =>
      match own_property members "toString" with
      | Some _ => None
      | None => Some "[object Object]"
      end
  | Array elements =>
      (fix join (l : list Value) : option string :=
         match l with
         | [] => Some ""
         | x :: rest =>
             let item :=
               match x with
               | Undefined | Null => Some ""
               | _ => ToString x
               end in
             match item, rest with
             | None, _ => None
             | Some a, [] => Some a
             | Some a, _ :: _ =>
                 match join rest with
                 | Some b => Some (a ++ "," ++ b)
                 | None => None
                 end
             end
         end) elements
  end.

End Js.

(* ================================================================== *)
(** ** Data model *)
(* ================================================================== *)

(** [type Platform = "youtube" | "tiktok"] *)
Inductive Platform : Type := youtube | tiktok.

(** [type DownloadType = "video" | "audio" | "search"] *)
Inductive DownloadType : Type := video | audio | search.

(** The string each member of the two unions is. *)
Definition platform_string (p : Platform) : string :=
  match p with youtube => "youtube" | tiktok => "tiktok" end.

Definition downloadType_string (t : DownloadType) : string :=
  match t with video => "video" | audio => "audio" | search => "search" end.

Definition Platform_eqb (a b : Platform) : bool :=
  match a, b with youtube, youtube | tiktok, tiktok => true | _, _ => false end.

Definition DownloadType_eqb (a b : DownloadType) : bool :=
  match a, b with
  | video, video | audio, audio | search, search => true
  | _, _ => false
  end.

Inductive Status : Type := idle | processing | downloading | complete | error.

(** [interface DownloadState]; an optional field that is left out of an
    object literal is [None]. *)
Record DownloadState : Type := mkDownloadState {
  status : Status;
  progress : N;
  message : string;
  downloadUrl : option string;
  filename : option string
}.

(** The argument of [toast]; [variant] is left out for a plain toast. *)
Record ToastMessage : Type := mkToast {
  title : string;
  description : string;
  variant : option string
}.

(** The state of the component together with the toasts it has shown. *)
Record Page : Type := mkPage {
  platform : Platform;
  downloadType : DownloadType;
  inputValue : string;
  downloadState : DownloadState;
  consoleLines : list string;
  toasts : list ToastMessage
}.

(** The initial values given to [useState]. *)
Definition initialPage : Page :=
  {| platform := youtube;
     downloadType := video;
     inputValue := "";
     downloadState := mkDownloadState idle 0 "" None None;
     consoleLines := [];
     toasts := [] |}.

(** *** What the browser answers *)

(** A thrown value, as far as the page looks at it: its [message]. *)
Record Error : Type := mkError { error_message : string }.

(** The [Response] of [fetch]: [json_result] is what [response.json()]
    resolves to ([None] when it rejects), [blob_result] the [size] of the
    blob [response.blob()] resolves to, or the error it rejects with. *)
Record Response : Type := mkResponse {
  response_status : N;
  Content_Disposition : option string;
  json_result : option Js.Value;
  blob_result : Error + N
}.

(** [response.ok] *)
Definition response_ok (r : Response) : bool :=
  ((200 <=? response_status r) && (response_status r <=? 299))%N.

(** One submission's surroundings: the value of [Date.now()], the outcome of
    the [fetch] promise and the message of the TypeError the engine raises
    when a value cannot be converted to a string. *)
Record Env : Type := mkEnv {
  Date_now : Z;
  fetch_result : Error + Response;
  TypeError_message : string
}.

(* ================================================================== *)
(** ** Effects of the event handlers *)
(* ================================================================== *)

(** What a handler does to the outside, in program order.  [Fetch] carries
    the endpoint and the object handed to [JSON.stringify]; [SaveFile] is
    the click on the temporary download link. *)
Inductive Effect : Type :=
| SetDownloadState (d : DownloadState)
| AddConsoleLine (line : string)
| Toast (t : ToastMessage)
| Fetch (endpoint : string) (body : Js.Value)
| SaveFile (size : N) (name : string).

(** [l.slice(-n)] *)
Definition slice_last {A : Type} (n : nat) (l : list A) : list A :=
  skipn (length l - n) l.

(** The updater of [addConsoleLine]; [time] is
    [new Date().toLocaleTimeString()]. *)
Definition addConsoleLine (time line : string) (prev : list string)
  : list string :=
  (slice_last 10 prev ++ [("[" ++ time ++ "] " ++ line)%string])%list.

Definition with_downloadState (d : DownloadState) (p : Page) : Page :=
  mkPage (platform p) (downloadType p) (inputValue p) d
         (consoleLines p) (toasts p).

Definition with_consoleLines (l : list string) (p : Page) : Page :=
  mkPage (platform p) (downloadType p) (inputValue p) (downloadState p)
         l (toasts p).

Definition with_toast (t : ToastMessage) (p : Page) : Page :=
  mkPage (platform p) (downloadType p) (inputValue p) (downloadState p)
         (consoleLines p) (toasts p ++ [t])%list.

(** An effect applied to the page that is current when it runs; [time] is
    the wall clock read at that moment. *)
Definition apply_effect (time : string) (e : Effect) (p : Page) : Page :=
  match e with
  | SetDownloadState d => with_downloadState d p
  | AddConsoleLine line =>
      with_consoleLines (addConsoleLine time line (consoleLines p)) p
  | Toast t => with_toast t p
  | Fetch _ _ => p
  | SaveFile _ _ => p
  end.

(** The effects of one handler applied in order; [clock k] is the wall
    clock at the [k]-th of them. *)
Fixpoint run (clock : nat -> string) (k : nat) (es : list Effect) (p : Page)
  : Page :=
  match es with
  | [] => p
  | e :: es' => run clock (S k) es' (apply_effect (clock k) e p)
  end.

(** The values given to [setDownloadState], in order. *)
Fixpoint states_set (es : list Effect) : list DownloadState :=
  match es with
  | [] => []
  | SetDownloadState d :: es' => d :: states_set es'
  | _ :: es' => states_set es'
  end.

(** *** Statements that may throw *)

(** A block of statements: the effects it performed, then either the value
    it produced or the error it threw. *)
Definition Exec (A : Type) : Type := (list Effect * (Error + A))%type.

Definition ret {A : Type} (a : A) : Exec A := ([], inr a).

Definition throw {A : Type} (e : Error) : Exec A := ([], inl e).

Definition perform (e : Effect) : Exec unit := ([e], inr tt).

Definition bind {A B : Type} (m : Exec A) (k : A -> Exec B) : Exec B :=
  match m with
  | (es, inl e) => (es, inl e)
  | (es, inr a) => let (es', r) := k a in ((es ++ es')%list, r)
  end.

(** An awaited promise: its value, or its rejection thrown. *)
Definition await {A : Type} (outcome : Error + A) : Exec A := ([], outcome).

(** [try { body } catch (error) { handler }] *)
Definition try_catch (body : Exec unit) (handler : Error -> list Effect)
  : list Effect :=
  match body with
  | (es, inr _) => es
  | (es, inl e) => (es ++ handler e)%list
  end.

Declare Scope exec_scope.
Delimit Scope exec_scope with exec.
Notation "x <- m ;; k" := (bind m (fun x => k))
  (at level 61, m at next level, right associativity) : exec_scope.
Notation "m ;; k" := (bind m (fun _ => k))
  (at level 61, right associativity) : exec_scope.

(* ================================================================== *)
(** ** The handlers of [Home] *)
(* ================================================================== *)

Import Js.

(** [validateInput], reading the values of the render [p] it closes over.
    It returns its boolean after the toast it may have shown. *)
Definition validateInput (p : Page) : list Effect * bool :=
  if trim (inputValue p) =? "" then
    ([Toast {| title := "ERROR.EMPTY_INPUT";
               description :=
                 if DownloadType_eqb (downloadType p) search
                 then "Please provide a username"
                 else "Please provide a URL";
               variant := Some "destructive" |}],
     false)
  else if negb (DownloadType_eqb (downloadType p) search) then
    if Platform_eqb (platform p) youtube
       && negb (includes (inputValue p) "youtu") then
      ([Toast {| title := "ERROR.INVALID_URL";
                 description := "Please provide a valid YouTube URL";
                 variant := Some "destructive" |}],
       false)
    else if Platform_eqb (platform p) tiktok
            && negb (includes (inputValue p) "tiktok") then
      ([Toast {| title := "ERROR.INVALID_URL";
                 description := "Please provide a valid TikTok URL";
                 variant := Some "destructive" |}],
       false)
    else ([], true)
  else ([], true).

(** *** The pattern [filename=], an optional quote, a captured run of one or
    more characters other than quote, semicolon and line feed, an optional
    quote *)

Definition in_class (c : ascii) : bool :=
  negb (Ascii.eqb c dquote || Ascii.eqb c semicolon || Ascii.eqb c newline).

(** The greedy run of class characters at the start of [s]. *)
Fixpoint take_class (s : string) : string :=
  match s with
  | EmptyString => EmptyString
  | String c s' => if in_class c then String c (take_class s') else EmptyString
  end.

Fixpoint string_drop (n : nat) (s : string) : string :=
  match n, s with
  | O, _ => s
  | S n', String _ s' => string_drop n' s'
  | S _, EmptyString => EmptyString
  end.

(** A match that starts at the first character of [s], giving group 1.
    After [filename=] the optional quote is taken when it is there; giving
    it back cannot help, since the quote is not in the class.  The run is
    greedy and the closing quote optional, so the group is the whole run. *)
Definition match_here (s : string) : option string :=
  if String.prefix "filename=" s then
    let rest := string_drop 9 s in
    let rest' :=
      match rest with
      | String c r => if Ascii.eqb c dquote then r else rest
      | EmptyString => rest
      end in
    match take_class rest' with
    | EmptyString => None
    | group => Some group
    end
  else None.

(** [s.match(pattern)], group 1 of the leftmost match. *)
Fixpoint filename_match (s : string) : option string :=
  match match_here s with
  | Some group => Some group
  | None =>
      match s with
      | EmptyString => None
      | String _ s' => filename_match s'
      end
  end.

(** The extension chosen for the mode. *)
Definition ext (t : DownloadType) : string :=
  if DownloadType_eqb t audio then ".mp3" else ".mp4".

(** The name before a header is looked at: platform, mode and
    [Date.now()] joined by underscores. *)
Definition default_filename (pf : Platform) (t : DownloadType) (now : Z)
  : string :=
  platform_string pf ++ "_" ++ downloadType_string t ++ "_" ++ string_of_Z now.

(** The name after the header has been looked at: group 1 of the match in a
    non-empty [Content-Disposition] header, else the default name. *)
Definition chosen_filename (pf : Platform) (t : DownloadType) (now : Z)
    (contentDisposition : option string) : string :=
  let filename := default_filename pf t now in
  match contentDisposition with
  | Some header =>
      if header =? "" then filename
      else match filename_match header with
           | Some group => group
           | None => filename
           end
  | None => filename
  end.

(** The file name computed between the two [downloading] updates: the
    extension is added when the name has no full stop. *)
Definition resolve_filename (pf : Platform) (t : DownloadType) (now : Z)
    (contentDisposition : option string) : string :=
  let filename := chosen_filename pf t now contentDisposition in
  if negb (includes filename ".") then filename ++ ext t else filename.

(** The message computed for a response that is not [ok]: the [message] of
    the parsed body when it is truthy, the default when it is not, and the
    status text when parsing or reading [message] throws. *)
Definition errorMessage (response : Response) : Value :=
  match json_result response with
  | Some parsed =>
      match get_message parsed with
      | Some m => if truthy m then m else Str "Download failed"
      | None => Str ("Server error: " ++ string_of_N (response_status response))
      end
  | None => Str ("Server error: " ++ string_of_N (response_status response))
  end.

(** [new Error(v)]; when [v] cannot be converted to a string the TypeError
    of the conversion is what gets thrown. *)
Definition new_Error (env : Env) (v : Value) : Error :=
  match ToString v with
  | Some s => mkError s
  | None => mkError (TypeError_message env)
  end.

Section HandleDownload.

Variable p : Page.
Variable env : Env.

Local Open Scope exec_scope.

(** The [endpoint] and the [body] of the request. *)
Definition endpoint : string :=
  "/api/" ++ platform_string (platform p) ++ "/"
          ++ downloadType_string (downloadType p).

Definition body : Value :=
  if DownloadType_eqb (downloadType p) search
  then Object [("query", Str (inputValue p))]
  else Object [("url", Str (inputValue p))].

(** The body of the [try] block. *)
Definition download_body : Exec unit :=
  perform (AddConsoleLine "> CONNECTING TO API ENDPOINT...") ;;
  perform (SetDownloadState
     (mkDownloadState processing 20 "ESTABLISHING_SECURE_CONNECTION..." None None)) ;;
  perform (Fetch endpoint body) ;;
  response <- await (fetch_result env) ;;
  (if negb (response_ok response)
   then throw (new_Error env (errorMessage response))
   else ret tt) ;;
  perform (AddConsoleLine "> CONNECTION_ESTABLISHED") ;;
  perform (SetDownloadState
     (mkDownloadState downloading 50 "EXTRACTING_MEDIA_STREAM..." None None)) ;;
  let filename :=
    resolve_filename (platform p) (downloadType p) (Date_now env)
                     (Content_Disposition response) in
  perform (AddConsoleLine ("> DOWNLOADING: " ++ filename)) ;;
  perform (SetDownloadState
     (mkDownloadState downloading 70 "STREAMING_DATA..." None None)) ;;
  size <- await (blob_result response) ;;
  (if (size <? 1024)%N
   then throw (mkError "Downloaded file is too small - may be invalid")
   else ret tt) ;;
  perform (AddConsoleLine ("> DOWNLOAD_COMPLETE: " ++ toFixed2_MiB size ++ " MB")) ;;
  perform (SetDownloadState
     (mkDownloadState complete 100 "DOWNLOAD.COMPLETE" None (Some filename))) ;;
  perform (SaveFile size filename) ;;
  perform (AddConsoleLine ("> FILE_SAVED: " ++ filename)) ;;
  perform (Toast {| title := "DOWNLOAD.SUCCESS";
                    description := filename ++ " downloaded successfully";
                    variant := None |}).

(** The [catch] block. *)
Definition download_catch (e : Error) : list Effect :=
  [ AddConsoleLine ("> ERROR: " ++ error_message e);
    SetDownloadState
      (mkDownloadState error 0 ("ERROR: " ++ error_message e) None None);
    Toast {| title := "ERROR.DOWNLOAD_FAILED";
             description :=
               if error_message e =? ""
               then "Failed to process download request"
               else error_message e;
             variant := Some "destructive" |} ].

(** [handleDownload], invoked from the render [p]. *)
Definition handleDownload : list Effect :=
  let (shown, valid) := validateInput p in
  if negb valid then shown
  else
    (shown
     ++ [ SetDownloadState
            (mkDownloadState processing 0 "INITIALIZING_CONNECTION..." None None);
          AddConsoleLine
            ("> INIT " ++ toUpperCase (platform_string (platform p)) ++ " "
             ++ toUpperCase (downloadType_string (downloadType p))
             ++ " PROTOCOL")%string;
          AddConsoleLine
            ("> TARGET: " ++ slice0 50 (inputValue p)
             ++ (if (50 <? String.length (inputValue p))%nat then "..." else ""))%string ]
     ++ try_catch download_body download_catch)%list.

End HandleDownload.

(** One submission from the page [p], run to its end with nothing else
    happening in between. *)
Definition submit (env : Env) (clock : nat -> string) (p : Page) : Page :=
  run clock 0 (handleDownload p env) p.

(** [resetState] *)
Definition resetState (p : Page) : Page :=
  mkPage (platform p) (downloadType p) ""
         (mkDownloadState idle 0 "" None None) [] (toasts p).

(** The change handlers of the form. *)
Definition setInputValue (s : string) (p : Page) : Page :=
  mkPage (platform p) (downloadType p) s (downloadState p)
         (consoleLines p) (toasts p).

Definition setDownloadType (t : DownloadType) (p : Page) : Page :=
  mkPage (platform p) t (inputValue p) (downloadState p)
         (consoleLines p) (toasts p).

Definition onPlatformChange (v : Platform) (p : Page) : Page :=
  mkPage v
         (if Platform_eqb v youtube && DownloadType_eqb (downloadType p) search
          then video else downloadType p)
         (inputValue p) (downloadState p) (consoleLines p) (toasts p).

(** *** Reachable pages *)

(** Everything that can change the page: an edit of the form, a reset, or
    one effect of some submission (started from any render, with any answer
    from the network) landing at any time. *)
Inductive transition : (Page -> Page) -> Prop :=
| t_input (s : string) : transition (setInputValue s)
| t_type (t : DownloadType) : transition (setDownloadType t)
| t_platform (v : Platform) : transition (onPlatformChange v)
| t_reset : transition resetState
| t_effect (origin : Page) (env : Env) (time : string) (e : Effect) :
    In e (handleDownload origin env) -> transition (apply_effect time e).

Inductive reachable : Page -> Prop :=
| reach_init : reachable initialPage
| reach_step (p : Page) (f : Page -> Page) :
    reachable p -> transition f -> reachable (f p).

(* ================================================================== *)
(** ** Vocabulary of the properties *)
(* ================================================================== *)

(** The console log after a series of appends, each a wall-clock reading
    and a text, oldest first. *)
Definition log_after (appends : list (string * string)) (log : list string)
  : list string :=
  fold_left (fun l a => addConsoleLine (fst a) (snd a) l) appends log.

(** The entry an append writes. *)
Definition entry (a : string * string) : string :=
  "[" ++ fst a ++ "] " ++ snd a.

(** Empty or made of white space only. *)
Fixpoint whitespace_only (s : string) : bool :=
  match s with
  | EmptyString => true
  | String c s' => isWhiteSpace c && whitespace_only s'
  end.

(** [line] mentions [word], letter case aside. *)
Definition mentions (line word : string) : bool :=
  includes (toLowerCase line) (toLowerCase word).

(** The invariant of [DownloadState]. *)
Definition state_ok (d : DownloadState) : Prop :=
  (status d = idle -> progress d = 0%N)
  /\ (status d = complete -> exists name, filename d = Some name)
  /\ (status d = error -> progress d = 0%N).

(** The text that follows [ERROR: ] when the response is not [ok]. *)
Definition failure_text (env : Env) (r : Response) : string :=
  error_message (new_Error env (errorMessage r)).

(** The header value [attachment; filename=] followed by [clip.mp4] between
    double quotes. *)
Definition clip_disposition : string :=
  "attachment; filename=" ++ String dquote "clip.mp4" ++ String dquote "".

(** *** The effects of a valid submission, phase by phase *)

(** Before the [try] block. *)
Definition starting (p : Page) : list Effect :=
  [ SetDownloadState
      (mkDownloadState processing 0 "INITIALIZING_CONNECTION..." None None);
    AddConsoleLine
      ("> INIT " ++ toUpperCase (platform_string (platform p)) ++ " "
       ++ toUpperCase (downloadType_string (downloadType p)) ++ " PROTOCOL");
    AddConsoleLine
      ("> TARGET: " ++ slice0 50 (inputValue p)
       ++ (if (50 <? String.length (inputValue p))%nat then "..." else "")) ].

(** Up to the request. *)
Definition connecting (p : Page) : list Effect :=
  [ AddConsoleLine "> CONNECTING TO API ENDPOINT...";
    SetDownloadState
      (mkDownloadState processing 20 "ESTABLISHING_SECURE_CONNECTION..."
         None None);
    Fetch (endpoint p) (body p) ].

(** From an [ok] response up to the reading of its body. *)
Definition streaming (name : string) : list Effect :=
  [ AddConsoleLine "> CONNECTION_ESTABLISHED";
    SetDownloadState
      (mkDownloadState downloading 50 "EXTRACTING_MEDIA_STREAM..." None None);
    AddConsoleLine ("> DOWNLOADING: " ++ name);
    SetDownloadState
      (mkDownloadState downloading 70 "STREAMING_DATA..." None None) ].

(** After a body of [size] bytes, large enough, has been read. *)
Definition finishing (size : N) (name : string) : list Effect :=
  [ AddConsoleLine ("> DOWNLOAD_COMPLETE: " ++ toFixed2_MiB size ++ " MB");
    SetDownloadState
      (mkDownloadState complete 100 "DOWNLOAD.COMPLETE" None (Some name));
    SaveFile size name;
    AddConsoleLine ("> FILE_SAVED: " ++ name);
    Toast {| title := "DOWNLOAD.SUCCESS";
             description := name ++ " downloaded successfully";
             variant := None |} ].

(* ================================================================== *)
(** ** What the page renders *)
(* ================================================================== *)

Definition Status_eqb (a b : Status) : bool :=
  match a, b with
  | idle, idle | processing, processing | downloading, downloading
  | complete, complete | error, error => true
  | _, _ => false
  end.

(** [getPlaceholder] *)
Definition getPlaceholder (p : Page) : string :=
  if Platform_eqb (platform p) tiktok
     && DownloadType_eqb (downloadType p) search
  then "enter_username (e.g., @badbunny)"
  else if Platform_eqb (platform p) youtube
       then "paste_youtube_url_here"
       else "paste_tiktok_url_here".

(** The mode buttons rendered for a platform. *)
Definition offered_types (pf : Platform) : list DownloadType :=
  if Platform_eqb pf tiktok then [video; audio; search] else [video; audio].

(** The [disabled] attribute shared by the input and the download
    button. *)
Definition controls_disabled (p : Page) : bool :=
  Status_eqb (status (downloadState p)) processing
  || Status_eqb (status (downloadState p)) downloading.

(** The condition under which the reset button and the progress panel are
    rendered. *)
Definition reset_shown (p : Page) : bool :=
  negb (Status_eqb (status (downloadState p)) idle).

(** What the user can do on the page as rendered, and what can happen to
    it: pick a tab, press one of the mode buttons on offer, type while the
    input is enabled, press reset when it is there; and any effect of a
    submission may land. *)
Inductive ui_step : Page -> Page -> Prop :=
| ui_tab (p : Page) (v : Platform) : ui_step p (onPlatformChange v p)
| ui_type (p : Page) (t : DownloadType) :
    In t (offered_types (platform p)) -> ui_step p (setDownloadType t p)
| ui_input (p : Page) (s : string) :
    controls_disabled p = false -> ui_step p (setInputValue s p)
| ui_reset (p : Page) :
    reset_shown p = true -> ui_step p (resetState p)
| ui_effect (p origin : Page) (env : Env) (time : string) (e : Effect) :
    In e (handleDownload origin env) -> ui_step p (apply_effect time e p).

Inductive ui_reachable : Page -> Prop :=
| ui_init : ui_reachable initialPage
| ui_next (p q : Page) : ui_reachable p -> ui_step p q -> ui_reachable q.

(** *** Parts of a list of effects *)

(** The requests sent. *)
Fixpoint requests (es : list Effect) : list (string * Value) :=
  match es with
  | [] => []
  | Fetch url sent :: es' => (url, sent) :: requests es'
  | _ :: es' => requests es'
  end.

(** The toasts shown. *)
Fixpoint toasts_shown (es : list Effect) : list ToastMessage :=
  match es with
  | [] => []
  | Toast t :: es' => t :: toasts_shown es'
  | _ :: es' => toasts_shown es'
  end.

(** The files handed to the browser for saving. *)
Fixpoint files_saved (es : list Effect) : list (N * string) :=
  match es with
  | [] => []
  | SaveFile size name :: es' => (size, name) :: files_saved es'
  | _ :: es' => files_saved es'
  end.

(** The console lines written when the effects run from tick [k], each with
    the wall-clock reading of its tick. *)
Fixpoint lines_logged (clock : nat -> string) (k : nat) (es : list Effect)
  : list (string * string) :=
  match es with
  | [] => []
  | AddConsoleLine line :: es' =>
      (clock k, line) :: lines_logged clock (S k) es'
  | _ :: es' => lines_logged clock (S k) es'
  end.

(** How status, progress, message and file name go together. *)
Definition state_consistent (d : DownloadState) : Prop :=
  match status d with
  | idle => progress d = 0%N /\ message d = ""
  | processing => progress d = 0%N \/ progress d = 20%N
  | downloading => progress d = 50%N \/ progress d = 70%N
  | complete => progress d = 100%N
  | error => progress d = 0%N /\ String.prefix "ERROR: " (message d) = true
  end
  /\ (forall name, filename d = Some name -> status d = complete)
  /\ (message d = "" -> status d = idle).

(** The echo of the input in the [TARGET] line. *)
Definition target_echo (input : string) : string :=
  slice0 50 input ++ (if (50 <? String.length input)%nat then "..." else "").

(** Every character of [s] is in the class of the file-name pattern. *)
Fixpoint all_in_class (s : string) : bool :=
  match s with
  | EmptyString => true
  | String c s' => in_class c && all_in_class s'
  end.

(** [s] is empty or starts with a character outside the class. *)
Definition ends_class_run (s : string) : bool :=
  match s with
  | EmptyString => true
  | String c _ => negb (in_class c)
  end.

(* ================================================================== *)
(** ** The console log *)
(* ================================================================== *)

Section ConsoleLog.

Context {A : Type}.
Implicit Types (l : list A) (n m : nat).

Lemma slice_last_length n l : length (slice_last n l) = Nat.min n (length l).
Proof. unfold slice_last. rewrite length_skipn. lia. Qed.

Lemma slice_last_short n l : length l <= n -> slice_last n l = l.
Proof.
  intros Hle. unfold slice_last.
  replace (length l - n) with 0 by lia. reflexivity.
Qed.

Lemma slice_last_snoc n l (x : A) :
  slice_last (S n) (l ++ [x]) = (slice_last n l ++ [x])%list.
Proof.
  unfold slice_last. rewrite length_app, skipn_app. cbn [length].
  replace (length l + 1 - S n) with (length l - n) by lia.
  replace (length l - n - length l) with 0 by lia.
  reflexivity.
Qed.

Lemma slice_last_twice n m l :
  n <= m -> slice_last n (slice_last m l) = slice_last n l.
Proof.
  intros Hle. unfold slice_last.
  rewrite skipn_skipn, length_skipn. f_equal. lia.
Qed.

Lemma slice_last_full n l (x : A) :
  length (x :: l) = S n -> slice_last n (x :: l) = l.
Proof.
  intros Hlen. unfold slice_last. rewrite Hlen.
  replace (S n - n) with 1 by lia. reflexivity.
Qed.

End ConsoleLog.

Lemma addConsoleLine_entry time line prev :
  addConsoleLine time line prev
  = (slice_last 10 prev ++ [entry (time, line)])%list.
Proof. reflexivity. Qed.

Lemma addConsoleLine_length time line prev :
  length (addConsoleLine time line prev) = S (Nat.min 10 (length prev)).
Proof.
  rewrite addConsoleLine_entry, length_app, slice_last_length.
  cbn [length]. lia.
Qed.

(** Appending to the last eleven of a history gives the last eleven of the
    longer history. *)
Lemma log_after_window appends : forall history,
  log_after appends (slice_last 11 history)
  = slice_last 11 (history ++ map entry appends).
Proof.
  induction appends as [|a appends IH]; intros history.
  - cbn. now rewrite app_nil_r.
  - cbn [log_after fold_left map].
    change (fold_left _ appends ?l) with (log_after appends l).
    destruct a as [time line]. cbn [fst snd].
    rewrite addConsoleLine_entry, slice_last_twice by lia.
    rewrite <- slice_last_snoc, IH, <- app_assoc. reflexivity.
Qed.

Lemma log_after_from_empty appends :
  log_after appends [] = slice_last 11 (map entry appends).
Proof. exact (log_after_window appends []). Qed.

(** C1 (as amended).  Starting from the empty log, after any series of
    appends the log is the last eleven entries written, in order: it never
    holds more than 11 entries (the ten kept from before and the new one).
    An append to a log below that bound drops nothing, and an append to a
    log of eleven drops exactly its oldest entry and puts the new one
    last. *)
Theorem console_log_bounded_fifo (appends : list (string * string))
    (time line : string) :
  let prev := log_after appends [] in
  let next := addConsoleLine time line prev in
  prev = slice_last 11 (map entry appends)
  /\ length prev <= 11
  /\ length next <= 11
  /\ (length prev <= 10 -> next = (prev ++ [entry (time, line)])%list)
  /\ (length prev = 11 -> next = (tl prev ++ [entry (time, line)])%list).
Proof.
  intros prev next.
  assert (Hprev : prev = slice_last 11 (map entry appends))
    by apply log_after_from_empty.
  assert (Hlen : length prev <= 11).
  { rewrite Hprev, slice_last_length. lia. }
  repeat split; trivial.
  - subst next. rewrite addConsoleLine_length. lia.
  - intros Hle. subst next.
    now rewrite addConsoleLine_entry, slice_last_short.
  - intros Heq. subst next. rewrite addConsoleLine_entry.
    destruct prev as [|oldest rest]; [discriminate|].
    now rewrite (slice_last_full 10 rest oldest Heq).
Qed.

Lemma console_log_bounded_fifo_witness :
  let appends := repeat ("12:00:00", "> line") 11 in
  length (log_after appends []) = 11
  /\ addConsoleLine "12:00:01" "> new" (log_after appends [])
     = (tl (log_after appends []) ++ ["[12:00:01] > new"])%list.
Proof.
  intros appends. split; [reflexivity|].
  apply (console_log_bounded_fifo appends "12:00:01" "> new").
  reflexivity.
Defined.

(** C1 (as stated) fails: eleven appends to the empty log leave eleven
    entries, so the log is not bounded by 10. *)
Lemma console_log_exceeds_ten :
  ~ (forall appends : list (string * string),
        length (log_after appends []) <= 10).
Proof.
  intros Hcap.
  specialize (Hcap (repeat ("12:00:00", "> line") 11)).
  vm_compute in Hcap. lia.
Qed.

(* ================================================================== *)
(** ** Validation *)
(* ================================================================== *)

Lemma trimEnd_empty s : trimEnd s = "" <-> whitespace_only s = true.
Proof.
  induction s as [|c s IH]; cbn [trimEnd whitespace_only].
  - tauto.
  - destruct (trimEnd s) eqn:Hend, (isWhiteSpace c); cbn [andb];
      split; intros H; try discriminate; try reflexivity.
    + now apply IH.
    + apply IH in H. discriminate.
Qed.

Lemma whitespace_only_trimStart s :
  whitespace_only (trimStart s) = whitespace_only s.
Proof.
  induction s as [|c s IH]; cbn [trimStart whitespace_only]; [reflexivity|].
  destruct (isWhiteSpace c) eqn:Hc; cbn [andb whitespace_only]; trivial.
  now rewrite Hc.
Qed.

Lemma trim_empty s : trim s = "" <-> whitespace_only s = true.
Proof.
  unfold trim. rewrite trimEnd_empty. now rewrite whitespace_only_trimStart.
Qed.

Lemma trim_eqb_empty s : (trim s =? "") = whitespace_only s.
Proof.
  destruct (whitespace_only s) eqn:Hs.
  - apply String.eqb_eq. now apply trim_empty.
  - apply String.eqb_neq. intros H. apply trim_empty in H. congruence.
Qed.

(** A call that returns [true] has shown no toast. *)
Lemma validateInput_true p :
  snd (validateInput p) = true -> validateInput p = ([], true).
Proof.
  unfold validateInput.
  repeat match goal with
         | |- context [if ?b then _ else _] => destruct b
         end; cbn [snd]; intros H; try discriminate; reflexivity.
Qed.

(** Whatever it returns, it only ever shows toasts. *)
Lemma validateInput_shows_toasts p :
  forall e, In e (fst (validateInput p)) -> exists t, e = Toast t.
Proof.
  unfold validateInput. intros e.
  repeat match goal with
         | |- context [if ?b then _ else _] => destruct b
         end; cbn [fst In]; intros H; try contradiction;
    destruct H as [<-|[]]; eauto.
Qed.

Lemma last_nonempty {A : Type} (l : list A) (x a b : A) :
  last (x :: l) a = last (x :: l) b.
Proof.
  revert x. induction l as [|y l IH]; intros x; [reflexivity|].
  change (last (y :: l) a = last (y :: l) b). apply IH.
Qed.

(** A run changes the download state to the last value set, if any. *)
Lemma downloadState_run clock es : forall k q,
  downloadState (run clock k es q) = last (states_set es) (downloadState q).
Proof.
  induction es as [|e es IH]; intros k q; [reflexivity|].
  cbn [run]. rewrite IH.
  destruct e; cbn [states_set apply_effect]; trivial.
  destruct (states_set es) as [|d' l]; [reflexivity|].
  change (last (d :: d' :: l) (downloadState q))
    with (last (d' :: l) (downloadState q)).
  apply last_nonempty.
Qed.

(** C6.  When the input text is empty or white space only, [validateInput]
    fails with the empty-input toast, whose description asks for a username
    in search mode and for a URL otherwise; the submission then does nothing
    else: no download state is set, and whatever page its effects land on
    keeps its download state and its log. *)
Theorem empty_input_no_transition (p : Page) (env : Env) :
  whitespace_only (inputValue p) = true ->
  let shown :=
    Toast {| title := "ERROR.EMPTY_INPUT";
             description :=
               match downloadType p with
               | search => "Please provide a username"
               | _ => "Please provide a URL"
               end;
             variant := Some "destructive" |} in
  validateInput p = ([shown], false)
  /\ handleDownload p env = [shown]
  /\ states_set (handleDownload p env) = []
  /\ forall clock k q,
       downloadState (run clock k (handleDownload p env) q) = downloadState q
       /\ consoleLines (run clock k (handleDownload p env) q) = consoleLines q.
Proof.
  intros Hblank shown.
  assert (Hv : validateInput p = ([shown], false)).
  { unfold validateInput. rewrite trim_eqb_empty, Hblank.
    subst shown. now destruct (downloadType p). }
  assert (Hh : handleDownload p env = [shown]).
  { unfold handleDownload. now rewrite Hv. }
  rewrite Hh. repeat split; trivial.
Qed.

Lemma empty_input_no_transition_witness :
  let p := setInputValue "   " (setDownloadType search (onPlatformChange tiktok initialPage)) in
  whitespace_only (inputValue p) = true
  /\ validateInput p
     = ([Toast {| title := "ERROR.EMPTY_INPUT";
                  description := "Please provide a username";
                  variant := Some "destructive" |}], false).
Proof.
  intros p. split; [reflexivity|].
  apply (empty_input_no_transition p (mkEnv 0 (inl (mkError "offline")) "")).
  reflexivity.
Defined.

(** C7 (as amended).  When the input text is not white space only: outside
    search mode [validateInput] returns whether the untrimmed text contains
    [youtu] (platform youtube) or [tiktok] (platform tiktok), showing the
    invalid-URL toast when it does not; in search mode it succeeds whatever
    the text contains. *)
Theorem validateInput_substring_rule (p : Page) :
  whitespace_only (inputValue p) = false ->
  let needle :=
    match platform p with youtube => "youtu" | tiktok => "tiktok" end in
  (downloadType p <> search ->
     snd (validateInput p) = includes (inputValue p) needle
     /\ (includes (inputValue p) needle = true -> validateInput p = ([], true))
     /\ (includes (inputValue p) needle = false ->
         validateInput p
         = ([Toast {| title := "ERROR.INVALID_URL";
                      description :=
                        match platform p with
                        | youtube => "Please provide a valid YouTube URL"
                        | tiktok => "Please provide a valid TikTok URL"
                        end;
                      variant := Some "destructive" |}], false)))
  /\ (downloadType p = search -> validateInput p = ([], true)).
Proof.
  intros Htext needle. unfold validateInput.
  rewrite trim_eqb_empty, Htext. subst needle.
  split.
  - intros Hmode.
    destruct (downloadType p), (platform p); try congruence;
      cbn [DownloadType_eqb Platform_eqb negb andb];
      destruct (includes (inputValue p) _);
      cbn [negb snd]; repeat split; intros; congruence.
  - intros ->. reflexivity.
Qed.

Lemma validateInput_substring_rule_witness :
  let p := setInputValue "https://example.com" initialPage in
  whitespace_only (inputValue p) = false
  /\ downloadType p <> search
  /\ snd (validateInput p) = false
  /\ validateInput (setInputValue "@badbunny"
        (setDownloadType search (onPlatformChange tiktok initialPage)))
     = ([], true).
Proof.
  intros p. split; [reflexivity|]. split; [discriminate|]. split.
  - destruct (validateInput_substring_rule p eq_refl) as [Hurl _].
    destruct (Hurl ltac:(discriminate)) as [Hret _].
    rewrite Hret. reflexivity.
  - apply (validateInput_substring_rule
             (setInputValue "@badbunny"
                (setDownloadType search (onPlatformChange tiktok initialPage)))
             eq_refl).
    reflexivity.
Defined.

(** C7 (as stated) fails: a text of one space is not empty, yet in search
    mode validation rejects it (as empty input). *)
Lemma nonempty_blank_search_rejected :
  ~ (forall p : Page,
        inputValue p <> "" -> downloadType p = search ->
        snd (validateInput p) = true).
Proof.
  intros Hclaim.
  specialize (Hclaim (mkPage tiktok search " " (downloadState initialPage) [] [])).
  cbn in Hclaim. specialize (Hclaim ltac:(discriminate) eq_refl).
  discriminate.
Qed.

(* ================================================================== *)
(** ** File names *)
(* ================================================================== *)

Lemma prefix_empty s : String.prefix "" s = true.
Proof. now destruct s. Qed.

Lemma includes_stop_cons c s :
  includes (String c s) "." = Ascii.eqb "." c || includes s ".".
Proof.
  cbn [includes String.prefix]. rewrite prefix_empty.
  destruct (ascii_dec "." c) as [<-|Hne].
  - reflexivity.
  - apply Ascii.eqb_neq in Hne. now rewrite Hne.
Qed.

Lemma includes_stop_app a b :
  includes (a ++ b) "." = includes a "." || includes b ".".
Proof.
  induction a as [|c a IH].
  - reflexivity.
  - cbn [String.append]. rewrite !includes_stop_cons, IH.
    now rewrite orb_assoc.
Qed.

Lemma digits_no_stop d : includes (NilEmpty.string_of_uint d) "." = false.
Proof.
  induction d; cbn [NilEmpty.string_of_uint];
    try (rewrite includes_stop_cons, IHd); reflexivity.
Qed.

Lemma string_of_Z_no_stop z : includes (string_of_Z z) "." = false.
Proof.
  unfold string_of_Z, NilZero.string_of_int, NilZero.string_of_uint.
  destruct (Z.to_int z) as [d|d]; destruct d;
    try rewrite includes_stop_cons; try rewrite includes_stop_cons;
    try rewrite digits_no_stop; reflexivity.
Qed.

Lemma default_filename_no_stop pf t now :
  includes (default_filename pf t now) "." = false.
Proof.
  unfold default_filename.
  rewrite !includes_stop_app, string_of_Z_no_stop.
  now destruct pf, t.
Qed.

Lemma default_filename_nonempty pf t now :
  1 <= String.length (default_filename pf t now).
Proof. destruct pf; cbn; lia. Qed.

(** Group 1 holds at least one character. *)
Lemma filename_match_nonempty header : forall group,
  filename_match header = Some group -> 1 <= String.length group.
Proof.
  assert (Hhere : forall s group,
             match_here s = Some group -> 1 <= String.length group).
  { intros s group. unfold match_here.
    destruct (String.prefix "filename=" s); [|discriminate].
    match goal with |- context [take_class ?r] => destruct (take_class r) end;
      [discriminate|].
    intros [= <-]. cbn. lia. }
  induction header as [|c header IH]; intros group; cbn [filename_match].
  - destruct (match_here "") eqn:Hm; [|discriminate].
    intros [= <-]. eauto.
  - destruct (match_here (String c header)) eqn:Hm.
    + intros [= <-]. eauto.
    + apply IH.
Qed.

Lemma chosen_filename_nonempty pf t now contentDisposition :
  1 <= String.length (chosen_filename pf t now contentDisposition).
Proof.
  unfold chosen_filename.
  destruct contentDisposition as [header|];
    [|apply default_filename_nonempty].
  destruct (header =? ""); [apply default_filename_nonempty|].
  destruct (filename_match header) eqn:Hm;
    [|apply default_filename_nonempty].
  eapply filename_match_nonempty; eassumption.
Qed.

Lemma length_append a b :
  String.length (a ++ b) = String.length a + String.length b.
Proof. induction a; cbn; [reflexivity|now rewrite IHa]. Qed.

(** C8.  The resolved file name is never empty.  When the response supplies
    no file name (no header, or a header the pattern does not match) the
    result is the name made of platform, mode and epoch milliseconds
    followed by [.mp3] in audio mode and [.mp4] otherwise.  In general a
    chosen name without a full stop gets that extension, and one with a
    full stop is returned as it is. *)
Theorem resolve_filename_extension (pf : Platform) (t : DownloadType)
    (now : Z) (contentDisposition : option string) :
  let chosen := chosen_filename pf t now contentDisposition in
  let extension := match t with audio => ".mp3" | _ => ".mp4" end in
  1 <= String.length (resolve_filename pf t now contentDisposition)
  /\ default_filename pf t now
     = platform_string pf ++ "_" ++ downloadType_string t ++ "_"
       ++ string_of_Z now
  /\ (contentDisposition = None
      \/ (exists header, contentDisposition = Some header
                         /\ filename_match header = None) ->
      resolve_filename pf t now contentDisposition
      = default_filename pf t now ++ extension)
  /\ (includes chosen "." = false ->
      resolve_filename pf t now contentDisposition = chosen ++ extension)
  /\ (includes chosen "." = true ->
      resolve_filename pf t now contentDisposition = chosen).
Proof.
  intros chosen extension.
  assert (Hext : ext t = extension) by now destruct t.
  assert (Hno : includes chosen "." = false ->
                resolve_filename pf t now contentDisposition
                = chosen ++ extension).
  { intros Hstop. unfold resolve_filename. fold chosen.
    now rewrite Hstop, Hext. }
  assert (Hyes : includes chosen "." = true ->
                 resolve_filename pf t now contentDisposition = chosen).
  { intros Hstop. unfold resolve_filename. fold chosen. now rewrite Hstop. }
  repeat split; trivial.
  - destruct (includes chosen ".") eqn:Hstop.
    + rewrite Hyes by reflexivity. apply chosen_filename_nonempty.
    + rewrite Hno by reflexivity. rewrite length_append.
      pose proof (chosen_filename_nonempty pf t now contentDisposition).
      fold chosen in H. lia.
  - intros Hnone.
    assert (Hchosen : chosen = default_filename pf t now).
    { subst chosen. unfold chosen_filename.
      destruct Hnone as [->|(header & -> & ->)]; [reflexivity|].
      now destruct (header =? ""). }
    rewrite Hno; rewrite Hchosen; trivial.
    apply default_filename_no_stop.
Qed.

Lemma resolve_filename_extension_witness :
  resolve_filename tiktok audio 1700000000000 None
  = "tiktok_audio_1700000000000.mp3"
  /\ resolve_filename youtube video 1700000000000 (Some "attachment")
     = "youtube_video_1700000000000.mp4".
Proof.
  split.
  - destruct (resolve_filename_extension tiktok audio 1700000000000 None)
      as (_ & _ & Hnone & _).
    apply Hnone. left. reflexivity.
  - destruct (resolve_filename_extension youtube video 1700000000000
                (Some "attachment")) as (_ & _ & Hnone & _).
    apply Hnone. right. exists "attachment". split; reflexivity.
Defined.

(* ================================================================== *)
(** ** The effects of a submission, case by case *)
(* ================================================================== *)

Section Traces.

Variables (p : Page) (env : Env).

Let name (r : Response) : string :=
  resolve_filename (platform p) (downloadType p) (Date_now env)
                   (Content_Disposition r).

Lemma handleDownload_valid :
  snd (validateInput p) = true ->
  handleDownload p env
  = (starting p ++ try_catch (download_body p env) download_catch)%list.
Proof.
  intros Hvalid. unfold handleDownload.
  now rewrite (validateInput_true p Hvalid).
Qed.

Lemma download_body_fetch_rejected e :
  fetch_result env = inl e ->
  download_body p env = (connecting p, inl e).
Proof. intros Hfetch. unfold download_body. now rewrite Hfetch. Qed.

Lemma download_body_not_ok r :
  fetch_result env = inr r -> response_ok r = false ->
  download_body p env = (connecting p, inl (new_Error env (errorMessage r))).
Proof.
  intros Hfetch Hok. unfold download_body. rewrite Hfetch.
  unfold bind, perform, await. cbn [app negb]. now rewrite Hok.
Qed.

Lemma download_body_blob_rejected r e :
  fetch_result env = inr r -> response_ok r = true ->
  blob_result r = inl e ->
  download_body p env = ((connecting p ++ streaming (name r))%list, inl e).
Proof.
  intros Hfetch Hok Hblob. unfold download_body. rewrite Hfetch.
  unfold bind, perform, await, ret. cbn [app negb].
  now rewrite Hok, Hblob.
Qed.

Lemma download_body_too_small r size :
  fetch_result env = inr r -> response_ok r = true ->
  blob_result r = inr size -> (size <? 1024)%N = true ->
  download_body p env
  = ((connecting p ++ streaming (name r))%list,
     inl (mkError "Downloaded file is too small - may be invalid")).
Proof.
  intros Hfetch Hok Hblob Hsize. unfold download_body. rewrite Hfetch.
  unfold bind, perform, await, ret, throw. cbn [app negb].
  now rewrite Hok, Hblob, Hsize.
Qed.

Lemma download_body_complete r size :
  fetch_result env = inr r -> response_ok r = true ->
  blob_result r = inr size -> (size <? 1024)%N = false ->
  download_body p env
  = ((connecting p ++ streaming (name r) ++ finishing size (name r))%list,
     inr tt).
Proof.
  intros Hfetch Hok Hblob Hsize. unfold download_body. rewrite Hfetch.
  unfold bind, perform, await, ret, throw. cbn [app negb].
  now rewrite Hok, Hblob, Hsize.
Qed.

End Traces.

(* ================================================================== *)
(** ** Outcomes of a submission *)
(* ================================================================== *)

Lemma map_string_app f a b :
  map_string f (a ++ b) = map_string f a ++ map_string f b.
Proof. induction a; cbn; [reflexivity|now rewrite IHa]. Qed.

Lemma includes_app_r a b word :
  includes b word = true -> includes (a ++ b) word = true.
Proof.
  intros Hb. induction a as [|c a IH]; [exact Hb|].
  cbn [String.append includes]. rewrite IH. apply orb_true_r.
Qed.

Lemma last_snoc {A : Type} (l : list A) (x d : A) : last (l ++ [x]) d = x.
Proof. apply last_last. Qed.

(** The entry written for the saved file mentions [file_saved]. *)
Lemma file_saved_mentioned time name :
  mentions ("[" ++ time ++ "] " ++ "> FILE_SAVED: " ++ name) "file_saved"
  = true.
Proof.
  unfold mentions, toLowerCase.
  rewrite (map_string_app _ "["), (map_string_app _ time).
  apply (includes_app_r (map_string downcase "[")).
  apply includes_app_r. reflexivity.
Qed.

(** C2.  A submission that passes validation, gets an [ok] response and
    reads a body of at least 1024 bytes sets the download state five times,
    in this order: processing (0), processing (20), downloading (50),
    downloading (70) and complete (100) with the resolved file name.  On
    whatever page its effects land, the final state is that complete state
    and the last log entry is the one for the saved file, which mentions
    [file_saved]. *)
Theorem successful_submission (p : Page) (env : Env) (r : Response)
    (size : N) :
  snd (validateInput p) = true ->
  fetch_result env = inr r ->
  response_ok r = true ->
  blob_result r = inr size ->
  (1024 <= size)%N ->
  let name :=
    resolve_filename (platform p) (downloadType p) (Date_now env)
                     (Content_Disposition r) in
  let done :=
    mkDownloadState complete 100 "DOWNLOAD.COMPLETE" None (Some name) in
  states_set (handleDownload p env)
  = [ mkDownloadState processing 0 "INITIALIZING_CONNECTION..." None None;
      mkDownloadState processing 20 "ESTABLISHING_SECURE_CONNECTION..."
        None None;
      mkDownloadState downloading 50 "EXTRACTING_MEDIA_STREAM..." None None;
      mkDownloadState downloading 70 "STREAMING_DATA..." None None;
      done ]
  /\ forall clock k q,
       let final := run clock k (handleDownload p env) q in
       downloadState final = done
       /\ last (consoleLines final) ""
          = "[" ++ clock (k + 13) ++ "] " ++ "> FILE_SAVED: " ++ name
       /\ mentions (last (consoleLines final) "") "file_saved" = true.
Proof.
  intros Hvalid Hfetch Hok Hblob Hsize name done.
  assert (Hbig : (size <? 1024)%N = false) by (apply N.ltb_ge; exact Hsize).
  assert (Htrace : handleDownload p env
                   = (starting p ++ connecting p ++ streaming name
                      ++ finishing size name)%list).
  { rewrite (handleDownload_valid p env Hvalid).
    rewrite (download_body_complete p env r size Hfetch Hok Hblob Hbig).
    reflexivity. }
  rewrite Htrace.
  assert (Hlast : forall clock k q,
             last (consoleLines
                     (run clock k
                        (starting p ++ connecting p ++ streaming name
                         ++ finishing size name) q)) ""
             = "[" ++ clock (k + 13) ++ "] " ++ "> FILE_SAVED: " ++ name).
  { intros clock k q. cbn [starting connecting streaming finishing app run].
    cbn [apply_effect with_toast with_consoleLines with_downloadState
         consoleLines].
    rewrite addConsoleLine_entry, last_snoc.
    replace (S (S (S (S (S (S (S (S (S (S (S (S (S k)))))))))))))
      with (k + 13) by lia.
    reflexivity. }
  split; [reflexivity|].
  intros clock k q final. subst final.
  split; [|split].
  - rewrite downloadState_run. reflexivity.
  - apply Hlast.
  - rewrite Hlast. apply file_saved_mentioned.
Qed.

(** C3.  A submission that passes validation and gets an [ok] response
    whose body, once read, is smaller than 1024 bytes ends in the error
    state with progress 0 and the too-small message; the header of the
    response plays no part. *)
Theorem small_body_is_an_error (p : Page) (env : Env) (r : Response)
    (size : N) :
  snd (validateInput p) = true ->
  fetch_result env = inr r ->
  response_ok r = true ->
  blob_result r = inr size ->
  (size < 1024)%N ->
  let failed :=
    mkDownloadState error 0
      "ERROR: Downloaded file is too small - may be invalid" None None in
  states_set (handleDownload p env)
  = [ mkDownloadState processing 0 "INITIALIZING_CONNECTION..." None None;
      mkDownloadState processing 20 "ESTABLISHING_SECURE_CONNECTION..."
        None None;
      mkDownloadState downloading 50 "EXTRACTING_MEDIA_STREAM..." None None;
      mkDownloadState downloading 70 "STREAMING_DATA..." None None;
      failed ]
  /\ (forall clock k q,
        downloadState (run clock k (handleDownload p env) q) = failed)
  /\ mentions (message failed) "file is too small" = true.
Proof.
  intros Hvalid Hfetch Hok Hblob Hsize failed.
  assert (Hsmall : (size <? 1024)%N = true) by (apply N.ltb_lt; exact Hsize).
  rewrite (handleDownload_valid p env Hvalid).
  rewrite (download_body_too_small p env r size Hfetch Hok Hblob Hsmall).
  split; [reflexivity|]. split; [|reflexivity].
  intros clock k q. rewrite downloadState_run. reflexivity.
Qed.

Lemma successful_submission_witness :
  let r := mkResponse 200 (Some clip_disposition) None (inr 2097152%N) in
  let env := mkEnv 1700000000000 (inr r) "" in
  let p := setInputValue "https://youtu.be/clip" initialPage in
  let final := submit env (fun _ => "12:00:00") p in
  downloadState final
  = mkDownloadState complete 100 "DOWNLOAD.COMPLETE" None (Some "clip.mp4")
  /\ last (consoleLines final) "" = "[12:00:00] > FILE_SAVED: clip.mp4".
Proof.
  intros r env p final.
  destruct (successful_submission p env r 2097152
              eq_refl eq_refl eq_refl eq_refl ltac:(lia)) as [_ Hfinal].
  destruct (Hfinal (fun _ => "12:00:00") 0 p) as (Hstate & Hlog & _).
  split; [exact Hstate|exact Hlog].
Defined.

Lemma small_body_is_an_error_witness :
  let r := mkResponse 200 (Some clip_disposition) None (inr 500%N) in
  let env := mkEnv 1700000000000 (inr r) "" in
  let p := setInputValue "https://youtu.be/clip" initialPage in
  downloadState (submit env (fun _ => "12:00:00") p)
  = mkDownloadState error 0
      "ERROR: Downloaded file is too small - may be invalid" None None.
Proof.
  intros r env p.
  destruct (small_body_is_an_error p env r 500
              eq_refl eq_refl eq_refl eq_refl ltac:(lia)) as (_ & Hfinal & _).
  exact (Hfinal (fun _ => "12:00:00") 0 p).
Defined.

(** The text after [ERROR: ] for each shape of the body of a response that
    is not [ok]. *)
Lemma failure_text_unparsed env r :
  json_result r = None ->
  failure_text env r = "Server error: " ++ string_of_N (response_status r).
Proof. intros Hjson. unfold failure_text, errorMessage. now rewrite Hjson. Qed.

Lemma failure_text_no_object env r parsed :
  json_result r = Some parsed -> get_message parsed = None ->
  failure_text env r = "Server error: " ++ string_of_N (response_status r).
Proof.
  intros Hjson Hget. unfold failure_text, errorMessage.
  now rewrite Hjson, Hget.
Qed.

Lemma failure_text_falsy env r parsed field :
  json_result r = Some parsed -> get_message parsed = Some field ->
  truthy field = false ->
  failure_text env r = "Download failed".
Proof.
  intros Hjson Hget Hfalsy. unfold failure_text, errorMessage.
  now rewrite Hjson, Hget, Hfalsy.
Qed.

Lemma failure_text_truthy env r parsed field text :
  json_result r = Some parsed -> get_message parsed = Some field ->
  truthy field = true -> ToString field = Some text ->
  failure_text env r = text.
Proof.
  intros Hjson Hget Htruthy Htext. unfold failure_text, errorMessage, new_Error.
  now rewrite Hjson, Hget, Htruthy, Htext.
Qed.

(** C4 (as amended).  A submission that passes validation and gets a
    response that is not [ok] ends in the error state with progress 0 and
    the message [ERROR: ] followed by a text that is
    - the [message] member of the parsed body, converted to a string, when
      the body parses to a value other than [null] and that member is
      truthy and can be converted (for a non-empty string member, the
      member itself);
    - the message of the TypeError that the engine raises, when that member
      is truthy but cannot be converted to a string (an object with a
      member of its own named [toString], or an array that holds one);
    - [Download failed] when the body parses to a value other than [null]
      and that member is missing or falsy;
    - [Server error: ] followed by the status code when the body does not
      parse, or parses to [null].
    These cases leave no response out. *)
Theorem failed_response_is_an_error (p : Page) (env : Env) (r : Response) :
  snd (validateInput p) = true ->
  fetch_result env = inr r ->
  response_ok r = false ->
  let failed :=
    mkDownloadState error 0 ("ERROR: " ++ failure_text env r) None None in
  let from_status := "Server error: " ++ string_of_N (response_status r) in
  (forall clock k q,
      downloadState (run clock k (handleDownload p env) q) = failed)
  /\ (forall parsed s,
        json_result r = Some parsed -> get_message parsed = Some (Str s) ->
        s <> "" -> failure_text env r = s)
  /\ (forall parsed field text,
        json_result r = Some parsed -> get_message parsed = Some field ->
        truthy field = true -> ToString field = Some text ->
        failure_text env r = text)
  /\ (forall parsed field,
        json_result r = Some parsed -> get_message parsed = Some field ->
        truthy field = false -> failure_text env r = "Download failed")
  /\ (json_result r = None \/ json_result r = Some Null ->
      failure_text env r = from_status)
  /\ (forall parsed field,
        json_result r = Some parsed -> get_message parsed = Some field ->
        truthy field = true -> ToString field = None ->
        failure_text env r = TypeError_message env)
  /\ (forall parsed,
        json_result r = Some parsed -> get_message parsed = None ->
        failure_text env r = from_status).
Proof.
  intros Hvalid Hfetch Hok failed from_status.
  split; [|split; [|split; [|split; [|split; [|split]]]]].
  - intros clock k q. rewrite downloadState_run.
    rewrite (handleDownload_valid p env Hvalid).
    rewrite (download_body_not_ok p env r Hfetch Hok).
    reflexivity.
  - intros parsed s Hjson Hget Hs.
    apply (failure_text_truthy env r parsed (Str s)); trivial.
    cbn [truthy]. apply String.eqb_neq in Hs. now rewrite Hs.
  - intros parsed field text. apply failure_text_truthy.
  - intros parsed field. apply failure_text_falsy.
  - intros [Hjson|Hjson].
    + now apply failure_text_unparsed.
    + now apply (failure_text_no_object env r Null).
  - intros parsed field Hjson Hget Htruthy Hnone.
    unfold failure_text, errorMessage, new_Error.
    now rewrite Hjson, Hget, Htruthy, Hnone.
  - intros parsed. apply failure_text_no_object.
Qed.

Lemma failed_response_is_an_error_witness :
  let p := setInputValue "https://youtu.be/clip" initialPage in
  let limited := mkResponse 500 None
             (Some (Object [("message", Str "rate limited")])) (inr 0%N) in
  let odd := mkResponse 500 None
             (Some (Object [("message", Object [("toString", Number "1")])]))
             (inr 0%N) in
  let raised := "Cannot convert object to primitive value" in
  downloadState
    (submit (mkEnv 1700000000000 (inr limited) raised) (fun _ => "12:00:00") p)
  = mkDownloadState error 0 "ERROR: rate limited" None None
  /\ downloadState
       (submit (mkEnv 1700000000000 (inr odd) raised) (fun _ => "12:00:00") p)
     = mkDownloadState error 0
         "ERROR: Cannot convert object to primitive value" None None.
Proof.
  intros p limited odd raised. split.
  - destruct (failed_response_is_an_error p
                (mkEnv 1700000000000 (inr limited) raised) limited
                eq_refl eq_refl eq_refl) as (Hfinal & _).
    exact (Hfinal (fun _ => "12:00:00") 0 p).
  - destruct (failed_response_is_an_error p
                (mkEnv 1700000000000 (inr odd) raised) odd
                eq_refl eq_refl eq_refl)
      as (Hfinal & _ & _ & _ & _ & Hraised & _).
    unfold submit. rewrite (Hfinal (fun _ => "12:00:00") 0 p).
    rewrite (Hraised _ _ eq_refl eq_refl eq_refl eq_refl).
    reflexivity.
Defined.

(** C4 (as stated) fails: for a 500 response whose body parses to the
    object without members, the final message is neither taken from a
    [message] member (there is none) nor made from the status code. *)
Lemma failed_response_default_message :
  ~ (forall (p : Page) (env : Env) (r : Response) (parsed : Value),
        snd (validateInput p) = true ->
        fetch_result env = inr r ->
        response_ok r = false ->
        json_result r = Some parsed ->
        let m := message (downloadState (submit env (fun _ => "") p)) in
        (exists field text,
            get_message parsed = Some field /\ field <> Undefined
            /\ ToString field = Some text /\ m = "ERROR: " ++ text)
        \/ includes m (string_of_N (response_status r)) = true).
Proof.
  intros Hclaim.
  pose (r := mkResponse 500 None (Some (Object [])) (inr 0%N)).
  specialize (Hclaim (setInputValue "https://youtu.be/clip" initialPage)
                (mkEnv 0 (inr r) "") r (Object [])
                eq_refl eq_refl eq_refl eq_refl).
  destruct Hclaim as [(field & text & Hget & Hfield & _)|Hstatus].
  - cbn in Hget. congruence.
  - vm_compute in Hstatus. discriminate.
Qed.

(* ================================================================== *)
(** ** Invariants of the download state *)
(* ================================================================== *)

(** Settles membership of a [SetDownloadState] in an explicit list of
    effects: every candidate is either another effect or a literal state. *)
Ltac settle_member H :=
  cbn [starting connecting streaming finishing download_catch app
       try_catch In] in H;
  repeat (destruct H as [H|H]; [try discriminate H|]);
  try contradiction;
  try (injection H as <-;
       unfold state_ok; cbn [status progress filename downloadUrl];
       repeat split; intros; try discriminate; eauto).

(** Every state a submission sets obeys the invariant and has no download
    URL. *)
Lemma handleDownload_sets p env d :
  In (SetDownloadState d) (handleDownload p env) ->
  state_ok d /\ downloadUrl d = None.
Proof.
  intros Hin.
  destruct (snd (validateInput p)) eqn:Hvalid.
  - rewrite (handleDownload_valid p env Hvalid) in Hin.
    destruct (fetch_result env) as [e|r] eqn:Hfetch.
    { rewrite (download_body_fetch_rejected p env e Hfetch) in Hin.
      settle_member Hin. }
    destruct (response_ok r) eqn:Hok.
    2:{ rewrite (download_body_not_ok p env r Hfetch Hok) in Hin.
        settle_member Hin. }
    destruct (blob_result r) as [e|size] eqn:Hblob.
    { rewrite (download_body_blob_rejected p env r e Hfetch Hok Hblob) in Hin.
      settle_member Hin. }
    destruct (size <? 1024)%N eqn:Hsize.
    + rewrite (download_body_too_small p env r size Hfetch Hok Hblob Hsize)
        in Hin.
      settle_member Hin.
    + rewrite (download_body_complete p env r size Hfetch Hok Hblob Hsize)
        in Hin.
      settle_member Hin.
  - unfold handleDownload in Hin.
    destruct (validateInput p) as [shown valid] eqn:Hv.
    cbn [snd] in Hvalid. subst valid. cbn [negb] in Hin.
    pose proof (validateInput_shows_toasts p (SetDownloadState d)) as Htoast.
    rewrite Hv in Htoast. destruct (Htoast Hin) as [t Ht]. discriminate.
Qed.

(** What a transition does to the download state: nothing, or it installs
    a state that obeys the invariant, has no download URL and is the same
    on whatever page the transition is applied. *)
Lemma transition_downloadState f :
  transition f ->
  (forall q, downloadState (f q) = downloadState q)
  \/ (exists d, (forall q, downloadState (f q) = d)
                /\ state_ok d /\ downloadUrl d = None).
Proof.
  intros [s|t|v| |origin env time e Hin]; try (left; reflexivity).
  - right. exists (mkDownloadState idle 0 "" None None).
    split; [reflexivity|]. unfold state_ok. cbn.
    repeat split; intros; try discriminate; reflexivity.
  - destruct e as [d| | | |]; try (left; reflexivity).
    right. exists d. split; [reflexivity|].
    eapply handleDownload_sets; eassumption.
Qed.

Lemma reachable_downloadState p :
  reachable p ->
  state_ok (downloadState p) /\ downloadUrl (downloadState p) = None.
Proof.
  induction 1 as [|p f Hreach IH Hstep].
  - unfold state_ok. cbn. repeat split; intros; try discriminate; reflexivity.
  - destruct (transition_downloadState f Hstep) as [Hsame|(d & Hset & Hd)].
    + now rewrite Hsame.
    + now rewrite Hset.
Qed.

(** C5.  On every reachable page the download state obeys the invariant:
    idle implies progress 0, complete implies a file name, error implies
    progress 0.  Every transition from such a page leads to a state that
    obeys it too, and either leaves the download state alone or replaces it
    by a whole new value that owes nothing to the value it replaces. *)
Theorem downloadState_invariant (p : Page) :
  reachable p ->
  state_ok (downloadState p)
  /\ forall f, transition f ->
       state_ok (downloadState (f p))
       /\ ((forall q, downloadState (f q) = downloadState q)
           \/ (exists d, forall q, downloadState (f q) = d)).
Proof.
  intros Hreach. split; [now apply reachable_downloadState|].
  intros f Hstep. split.
  - apply reachable_downloadState. now apply reach_step with (p := p).
  - destruct (transition_downloadState f Hstep) as [Hsame|(d & Hset & _)];
      [left|right; exists d]; assumption.
Qed.

Lemma downloadState_invariant_witness :
  let p := setInputValue "https://youtu.be/clip" initialPage in
  let done :=
    mkDownloadState complete 100 "DOWNLOAD.COMPLETE" None (Some "clip.mp4") in
  reachable (apply_effect "12:00:00" (SetDownloadState done) p)
  /\ state_ok done.
Proof.
  intros p done.
  pose (r := mkResponse 200 (Some clip_disposition) None (inr 2097152%N)).
  pose (env := mkEnv 1700000000000 (inr r) "").
  assert (Hp : reachable p).
  { apply (reach_step initialPage); [apply reach_init|apply t_input]. }
  assert (Hq : reachable (apply_effect "12:00:00" (SetDownloadState done) p)).
  { apply (reach_step p); [exact Hp|].
    apply (t_effect p env). cbn. do 11 right. left. reflexivity. }
  split; [exact Hq|].
  exact (proj1 (downloadState_invariant _ Hq)).
Defined.

(** C9.  Whatever the page, after [resetState] the download state is idle
    with progress 0, an empty message, no file name and no download URL,
    the console log is empty and so is the input text. *)
Theorem resetState_clears (p : Page) :
  downloadState (resetState p) = mkDownloadState idle 0 "" None None
  /\ consoleLines (resetState p) = []
  /\ inputValue (resetState p) = "".
Proof. repeat split. Qed.

(** C10.  On every reachable page the download state has no download URL:
    the initial state has none and no transition sets one. *)
Theorem downloadUrl_never_set (p : Page) :
  reachable p -> downloadUrl (downloadState p) = None.
Proof. intros Hreach. now apply reachable_downloadState. Qed.

Lemma downloadUrl_never_set_witness :
  let p := setInputValue "https://youtu.be/clip" initialPage in
  let r := mkResponse 200 (Some clip_disposition) None (inr 2097152%N) in
  let env := mkEnv 1700000000000 (inr r) "" in
  let done :=
    mkDownloadState complete 100 "DOWNLOAD.COMPLETE" None (Some "clip.mp4") in
  reachable (resetState (apply_effect "12:00:00" (SetDownloadState done) p))
  /\ downloadUrl (downloadState (apply_effect "12:00:00" (SetDownloadState done) p))
     = None.
Proof.
  intros p r env done.
  assert (Hq : reachable (apply_effect "12:00:00" (SetDownloadState done) p)).
  { apply (reach_step p).
    - apply (reach_step initialPage); [apply reach_init|apply t_input].
    - apply (t_effect p env). cbn. do 11 right. left. reflexivity. }
  split.
  - apply (reach_step _ resetState); [exact Hq|apply t_reset].
  - exact (downloadUrl_never_set _ Hq).
Defined.

(* ================================================================== *)
(** ** The form *)
(* ================================================================== *)

Lemma apply_effect_selection time e p :
  platform (apply_effect time e p) = platform p
  /\ downloadType (apply_effect time e p) = downloadType p
  /\ inputValue (apply_effect time e p) = inputValue p.
Proof. destruct e; repeat split. Qed.

Lemma ui_selection p :
  ui_reachable p -> downloadType p = search -> platform p = tiktok.
Proof.
  induction 1 as [|p q Hreach IH Hstep]; [discriminate|].
  destruct Hstep as [p v|p t Hoffer|p s _|p _|p origin env time e _].
  - destruct v; cbn; [|reflexivity].
    destruct (downloadType p); discriminate.
  - cbn. intros ->. destruct (platform p); [|reflexivity].
    cbn in Hoffer. intuition discriminate.
  - exact IH.
  - exact IH.
  - destruct (apply_effect_selection time e p) as (-> & -> & _). exact IH.
Qed.

(** X1.  Search mode is only ever selected together with the TikTok platform:
    the search button is offered on the TikTok tab only, and going to the
    YouTube tab in search mode switches to video mode. *)
Theorem search_only_on_tiktok (p : Page) :
  ui_reachable p -> downloadType p = search -> platform p = tiktok.
Proof. apply ui_selection. Qed.

Lemma search_only_on_tiktok_witness :
  let p := setDownloadType search (onPlatformChange tiktok initialPage) in
  ui_reachable p /\ platform p = tiktok.
Proof.
  intros p.
  assert (Hp : ui_reachable p).
  { apply (ui_next (onPlatformChange tiktok initialPage)).
    - apply (ui_next initialPage); [apply ui_init|apply ui_tab].
    - apply ui_type. cbn. tauto. }
  split; [exact Hp|].
  exact (search_only_on_tiktok p Hp eq_refl).
Defined.

(** X2.  On the page as the user can reach it, the placeholder asks for a
    username exactly in search mode; in the other modes it asks for a URL
    of the selected platform. *)
Theorem placeholder_follows_mode (p : Page) :
  ui_reachable p ->
  getPlaceholder p
  = match downloadType p, platform p with
    | search, _ => "enter_username (e.g., @badbunny)"
    | _, youtube => "paste_youtube_url_here"
    | _, tiktok => "paste_tiktok_url_here"
    end.
Proof.
  intros Hreach. unfold getPlaceholder.
  destruct (downloadType p) eqn:Hmode; try (now destruct (platform p)).
  now rewrite (ui_selection p Hreach Hmode).
Qed.

Lemma placeholder_follows_mode_witness :
  let p := setDownloadType search (onPlatformChange tiktok initialPage) in
  ui_reachable p /\ getPlaceholder p = "enter_username (e.g., @badbunny)".
Proof.
  intros p.
  assert (Hp : ui_reachable p).
  { apply (ui_next (onPlatformChange tiktok initialPage)).
    - apply (ui_next initialPage); [apply ui_init|apply ui_tab].
    - apply ui_type. cbn. tauto. }
  split; [exact Hp|].
  exact (placeholder_follows_mode p Hp).
Defined.

(* ================================================================== *)
(** ** More invariants of reachable pages *)
(* ================================================================== *)

(** Like [settle_member], for [state_consistent]. *)
Ltac settle_consistent H :=
  cbn [starting connecting streaming finishing download_catch app
       try_catch In] in H;
  repeat (destruct H as [H|H]; [try discriminate H|]);
  try contradiction;
  try (injection H as <-;
       unfold state_consistent;
       cbn [status progress filename message];
       repeat split; intros; try discriminate; auto;
       try (cbn; apply prefix_empty)).

Lemma handleDownload_sets_consistent p env d :
  In (SetDownloadState d) (handleDownload p env) -> state_consistent d.
Proof.
  intros Hin.
  destruct (snd (validateInput p)) eqn:Hvalid.
  - rewrite (handleDownload_valid p env Hvalid) in Hin.
    destruct (fetch_result env) as [e|r] eqn:Hfetch.
    { rewrite (download_body_fetch_rejected p env e Hfetch) in Hin.
      settle_consistent Hin. }
    destruct (response_ok r) eqn:Hok.
    2:{ rewrite (download_body_not_ok p env r Hfetch Hok) in Hin.
        settle_consistent Hin. }
    destruct (blob_result r) as [e|size] eqn:Hblob.
    { rewrite (download_body_blob_rejected p env r e Hfetch Hok Hblob) in Hin.
      settle_consistent Hin. }
    destruct (size <? 1024)%N eqn:Hsize.
    + rewrite (download_body_too_small p env r size Hfetch Hok Hblob Hsize)
        in Hin.
      settle_consistent Hin.
    + rewrite (download_body_complete p env r size Hfetch Hok Hblob Hsize)
        in Hin.
      settle_consistent Hin.
  - unfold handleDownload in Hin.
    destruct (validateInput p) as [shown valid] eqn:Hv.
    cbn [snd] in Hvalid. subst valid. cbn [negb] in Hin.
    pose proof (validateInput_shows_toasts p (SetDownloadState d)) as Htoast.
    rewrite Hv in Htoast. destruct (Htoast Hin) as [t Ht]. discriminate.
Qed.

(** X3.  On every reachable page the progress fits the status (0 when idle or
    in error, 0 or 20 while processing, 50 or 70 while downloading, 100
    when complete), an error message starts with [ERROR: ], a file name is
    present only in the complete state, and the message is empty only in
    the idle state. *)
Theorem progress_fits_status (p : Page) :
  reachable p -> state_consistent (downloadState p).
Proof.
  induction 1 as [|p f Hreach IH Hstep].
  - unfold state_consistent. cbn. repeat split; intros; try discriminate.
  - destruct Hstep as [s|t|v| |origin env time e Hin]; try exact IH.
    + unfold state_consistent. cbn. repeat split; intros; try discriminate.
    + destruct e as [d| | | |]; try exact IH.
      cbn. eapply handleDownload_sets_consistent; eassumption.
Qed.

Lemma progress_fits_status_witness :
  let p := setInputValue "https://youtu.be/clip" initialPage in
  let r := mkResponse 200 (Some clip_disposition) None (inr 2097152%N) in
  let env := mkEnv 1700000000000 (inr r) "" in
  let done :=
    mkDownloadState complete 100 "DOWNLOAD.COMPLETE" None (Some "clip.mp4") in
  reachable (apply_effect "12:00:00" (SetDownloadState done) p)
  /\ state_consistent done.
Proof.
  intros p r env done.
  assert (Hq : reachable (apply_effect "12:00:00" (SetDownloadState done) p)).
  { apply (reach_step p).
    - apply (reach_step initialPage); [apply reach_init|apply t_input].
    - apply (t_effect p env). cbn. do 11 right. left. reflexivity. }
  split; [exact Hq|].
  exact (progress_fits_status _ Hq).
Defined.

(** X4.  On every reachable page the console holds at most eleven lines,
    whatever the order in which edits, resets and the effects of
    submissions happen. *)
Theorem console_never_exceeds_eleven (p : Page) :
  reachable p -> length (consoleLines p) <= 11.
Proof.
  induction 1 as [|p f Hreach IH Hstep].
  - cbn. lia.
  - destruct Hstep as [s|t|v| |origin env time e Hin]; try exact IH.
    + cbn. lia.
    + destruct e as [d|line| | |]; try exact IH.
      cbn [apply_effect with_consoleLines consoleLines].
      rewrite addConsoleLine_length. lia.
Qed.

Lemma console_never_exceeds_eleven_witness :
  let p := setInputValue "https://youtu.be/clip" initialPage in
  let env := mkEnv 0 (inl (mkError "offline")) "" in
  let q := apply_effect "12:00:00" (AddConsoleLine "> CONNECTING TO API ENDPOINT...") p in
  reachable q /\ length (consoleLines q) <= 11.
Proof.
  intros p env q.
  assert (Hq : reachable q).
  { apply (reach_step p).
    - apply (reach_step initialPage); [apply reach_init|apply t_input].
    - apply (t_effect p env). cbn. do 3 right. left. reflexivity. }
  split; [exact Hq|].
  exact (console_never_exceeds_eleven q Hq).
Defined.

(* ================================================================== *)
(** ** Every way a submission can go *)
(* ================================================================== *)

Lemma validateInput_false p :
  snd (validateInput p) = false ->
  exists t, validateInput p = ([Toast t], false)
            /\ variant t = Some "destructive".
Proof.
  unfold validateInput.
  repeat match goal with
         | |- context [if ?b then _ else _] => destruct b
         end; cbn [snd]; intros H; try discriminate; eauto.
Qed.

Lemma handleDownload_invalid p env :
  snd (validateInput p) = false ->
  exists t, handleDownload p env = [Toast t]
            /\ variant t = Some "destructive".
Proof.
  intros Hinvalid.
  destruct (validateInput_false p Hinvalid) as (t & Hv & Ht).
  exists t. split; [|exact Ht]. unfold handleDownload. now rewrite Hv.
Qed.

(** The three shapes of the effects of a valid submission: failure before
    the response is accepted, failure while reading the body, success. *)
Lemma handleDownload_shape p env :
  snd (validateInput p) = true ->
  let name r :=
    resolve_filename (platform p) (downloadType p) (Date_now env)
                     (Content_Disposition r) in
  (exists e,
      handleDownload p env
      = (starting p ++ connecting p ++ download_catch e)%list
      /\ (fetch_result env = inl e
          \/ exists r, fetch_result env = inr r /\ response_ok r = false
                       /\ e = new_Error env (errorMessage r)))
  \/ (exists r e,
         handleDownload p env
         = (starting p ++ connecting p ++ streaming (name r)
            ++ download_catch e)%list
         /\ fetch_result env = inr r /\ response_ok r = true
         /\ (blob_result r = inl e
             \/ exists size, blob_result r = inr size /\ (size < 1024)%N
                  /\ e = mkError "Downloaded file is too small - may be invalid"))
  \/ (exists r size,
         handleDownload p env
         = (starting p ++ connecting p ++ streaming (name r)
            ++ finishing size (name r))%list
         /\ fetch_result env = inr r /\ response_ok r = true
         /\ blob_result r = inr size /\ (1024 <= size)%N).
Proof.
  intros Hvalid name. rewrite (handleDownload_valid p env Hvalid).
  destruct (fetch_result env) as [e|r] eqn:Hfetch.
  { left. exists e.
    rewrite (download_body_fetch_rejected p env e Hfetch). auto. }
  destruct (response_ok r) eqn:Hok.
  2:{ left. exists (new_Error env (errorMessage r)).
      rewrite (download_body_not_ok p env r Hfetch Hok).
      split; [reflexivity|]. right. exists r. auto. }
  destruct (blob_result r) as [e|size] eqn:Hblob.
  { right. left. exists r, e.
    rewrite (download_body_blob_rejected p env r e Hfetch Hok Hblob).
    cbn [try_catch]. rewrite <- !app_assoc. auto. }
  destruct (size <? 1024)%N eqn:Hsize.
  - right. left. exists r, (mkError "Downloaded file is too small - may be invalid").
    rewrite (download_body_too_small p env r size Hfetch Hok Hblob Hsize).
    cbn [try_catch]. rewrite <- !app_assoc.
    repeat split; trivial. right. exists size.
    apply N.ltb_lt in Hsize. auto.
  - right. right. exists r, size.
    rewrite (download_body_complete p env r size Hfetch Hok Hblob Hsize).
    apply N.ltb_ge in Hsize. auto.
Qed.

(** X5.  The states a valid submission goes through, whatever the network
    answers: processing 0 and 20, then either the error state at once, or
    downloading 50 and 70 followed by the error state or by complete 100.
    Downloading never comes without processing before it, nor complete
    without downloading. *)
Theorem status_sequence (p : Page) (env : Env) :
  snd (validateInput p) = true ->
  let steps :=
    map (fun d => (status d, progress d)) (states_set (handleDownload p env)) in
  steps = [(processing, 0); (processing, 20); (error, 0)]%N
  \/ steps = [(processing, 0); (processing, 20); (downloading, 50);
              (downloading, 70); (error, 0)]%N
  \/ steps = [(processing, 0); (processing, 20); (downloading, 50);
              (downloading, 70); (complete, 100)]%N.
Proof.
  intros Hvalid steps. subst steps.
  destruct (handleDownload_shape p env Hvalid)
    as [(e & -> & _)|[(r & e & -> & _)|(r & size & -> & _)]]; auto.
Qed.

Lemma status_sequence_witness :
  let p := setInputValue "https://youtu.be/clip" initialPage in
  let env := mkEnv 0 (inl (mkError "Failed to fetch")) "" in
  map (fun d => (status d, progress d)) (states_set (handleDownload p env))
  = [(processing, 0); (processing, 20); (error, 0)]%N.
Proof.
  intros p env.
  destruct (status_sequence p env eq_refl) as [H|[H|H]];
    [exact H|discriminate H|discriminate H].
Defined.

(** X6.  Whatever the network answers, once both promises have settled and
    the effects of a valid submission have landed, the page is in the
    complete or in the error state, so the controls are enabled again; it
    is in the complete state exactly when the response is [ok] and its body
    is read without error and has at least 1024 bytes.  ([env] records how
    the promises settle; nothing is said of a promise that stays
    pending.) *)
Theorem submission_always_ends (p : Page) (env : Env)
    (clock : nat -> string) (k : nat) (q : Page) :
  snd (validateInput p) = true ->
  let final := run clock k (handleDownload p env) q in
  (status (downloadState final) = complete
   \/ status (downloadState final) = error)
  /\ controls_disabled final = false
  /\ (status (downloadState final) = complete <->
      exists r size,
        fetch_result env = inr r /\ response_ok r = true
        /\ blob_result r = inr size /\ (1024 <= size)%N).
Proof.
  intros Hvalid final. subst final. unfold controls_disabled.
  rewrite downloadState_run.
  destruct (handleDownload_shape p env Hvalid)
    as [(e & -> & Hwhy)|[(r & e & -> & Hfetch & Hok & Hwhy)
                        |(r & size & -> & Hfetch & Hok & Hblob & Hsize)]];
    cbn [starting connecting streaming finishing download_catch app
         states_set last status Status_eqb orb].
  - repeat split; auto; try discriminate.
    intros (r & size & Hfetch & Hok & _).
    destruct Hwhy as [Hrej|(r' & Hfetch' & Hok' & _)]; congruence.
  - repeat split; auto; try discriminate.
    intros (r' & size & Hfetch' & _ & Hblob & Hsize).
    assert (r' = r) by congruence. subst r'.
    destruct Hwhy as [Hrej|(size' & Hblob' & Hsmall & _)]; [congruence|].
    assert (size' = size) by congruence. subst size'. lia.
  - repeat split; auto. eauto 6.
Qed.

Lemma submission_always_ends_witness :
  let p := setInputValue "https://youtu.be/clip" initialPage in
  let env := mkEnv 0 (inl (mkError "Failed to fetch")) "" in
  let final := submit env (fun _ => "12:00:00") p in
  status (downloadState final) = error /\ controls_disabled final = false.
Proof.
  intros p env final.
  destruct (submission_always_ends p env (fun _ => "12:00:00") 0 p eq_refl)
    as ([Hdone|Hfailed] & Hcontrols & _).
  - discriminate Hdone.
  - split; [exact Hfailed|exact Hcontrols].
Defined.

(** X7.  A submission sends exactly one request when validation passes and none
    when it fails.  The request goes to [/api/<platform>/<mode>] and
    carries the input text as typed, untrimmed, under the key [query] in
    search mode and [url] otherwise; the answer of the network has no part
    in it. *)
Theorem one_request_per_submission (p : Page) (env : Env) :
  requests (handleDownload p env)
  = if snd (validateInput p)
    then [ ("/api/" ++ platform_string (platform p) ++ "/"
            ++ downloadType_string (downloadType p),
            Object [ (match downloadType p with
                      | search => "query"
                      | _ => "url"
                      end, Str (inputValue p)) ]) ]
    else [].
Proof.
  destruct (snd (validateInput p)) eqn:Hvalid.
  - assert (Hbody : body p
                    = Object [ (match downloadType p with
                                | search => "query"
                                | _ => "url"
                                end, Str (inputValue p)) ])
      by (unfold body; now destruct (downloadType p)).
    rewrite <- Hbody. change (_ ++ _ ++ _ ++ _) with (endpoint p).
    destruct (handleDownload_shape p env Hvalid)
      as [(e & -> & _)|[(r & e & -> & _)|(r & size & -> & _)]]; reflexivity.
  - destruct (handleDownload_invalid p env Hvalid) as (t & -> & _).
    reflexivity.
Qed.

(** Bounds the toasts among the first [n] of an explicit list of effects,
    for each [n] in turn. *)
Ltac by_prefix n :=
  do 16 (destruct n as [|n]; [cbn; lia|]); cbn; lia.

(** X8.  A call of the handler never shows more than one toast, however few
    of its effects have landed yet.  Once the promises have settled and all
    effects have landed it has shown exactly one: the success toast, naming
    the saved file, when a file was saved; in every other case, failed
    validation included, a destructive toast, and nothing was saved. *)
Theorem one_toast_per_submission (p : Page) (env : Env) :
  (forall n, length (toasts_shown (firstn n (handleDownload p env))) <= 1)
  /\ exists t,
       toasts_shown (handleDownload p env) = [t]
       /\ ((exists size name,
               files_saved (handleDownload p env) = [(size, name)]
               /\ t = mkToast "DOWNLOAD.SUCCESS"
                        (name ++ " downloaded successfully") None)
           \/ (files_saved (handleDownload p env) = []
               /\ variant t = Some "destructive")).
Proof.
  destruct (snd (validateInput p)) eqn:Hvalid.
  - destruct (handleDownload_shape p env Hvalid)
      as [(e & -> & _)|[(r & e & -> & _)|(r & size & -> & _)]];
      cbn [starting connecting streaming finishing download_catch app];
      (split; [intros n; by_prefix n|]);
      eexists; (split; [reflexivity|]);
      first [ left; do 2 eexists; split; reflexivity
            | right; split; reflexivity ].
  - destruct (handleDownload_invalid p env Hvalid) as (t & -> & Ht).
    split; [intros n; by_prefix n|].
    exists t. split; [reflexivity|]. right. auto.
Qed.

(** X9.  A submission saves at most one file.  When it does, the body had at
    least 1024 bytes, and the file goes under the very name that the
    complete state carries; when it does not, the complete state is never
    set. *)
Theorem file_saved_with_complete (p : Page) (env : Env) :
  (exists size name,
      files_saved (handleDownload p env) = [(size, name)]
      /\ (1024 <= size)%N
      /\ In (mkDownloadState complete 100 "DOWNLOAD.COMPLETE" None (Some name))
            (states_set (handleDownload p env)))
  \/ (files_saved (handleDownload p env) = []
      /\ forall d, In d (states_set (handleDownload p env)) ->
                   status d <> complete).
Proof.
  destruct (snd (validateInput p)) eqn:Hvalid.
  - destruct (handleDownload_shape p env Hvalid)
      as [(e & -> & _)|[(r & e & -> & _)|(r & size & -> & _ & _ & _ & Hsize)]];
      cbn [starting connecting streaming finishing download_catch app
           states_set files_saved].
    + right. split; [reflexivity|]. intros d Hd. cbn in Hd.
      intuition (subst; discriminate).
    + right. split; [reflexivity|]. intros d Hd. cbn in Hd.
      intuition (subst; discriminate).
    + left. do 2 eexists. split; [reflexivity|]. split; [exact Hsize|].
      cbn. tauto.
  - destruct (handleDownload_invalid p env Hvalid) as (t & -> & _).
    right. split; [reflexivity|]. intros d [].
Qed.

(** X10.  When the request itself fails (the [fetch] promise rejects), the
    submission goes from processing straight to the error state, whose
    message is [ERROR: ] followed by the message of the rejection; the last
    console line reports the same message, nothing is saved, and the toast
    gives that message, or a stock sentence when the message is empty. *)
Theorem request_failure (p : Page) (env : Env) (e : Error) :
  snd (validateInput p) = true ->
  fetch_result env = inl e ->
  states_set (handleDownload p env)
  = [ mkDownloadState processing 0 "INITIALIZING_CONNECTION..." None None;
      mkDownloadState processing 20 "ESTABLISHING_SECURE_CONNECTION..."
        None None;
      mkDownloadState error 0 ("ERROR: " ++ error_message e) None None ]
  /\ files_saved (handleDownload p env) = []
  /\ toasts_shown (handleDownload p env)
     = [ mkToast "ERROR.DOWNLOAD_FAILED"
           (if error_message e =? ""
            then "Failed to process download request"
            else error_message e)
           (Some "destructive") ]
  /\ forall clock k q,
       last (consoleLines (run clock k (handleDownload p env) q)) ""
       = "[" ++ clock (k + 6) ++ "] " ++ "> ERROR: " ++ error_message e.
Proof.
  intros Hvalid Hfetch.
  rewrite (handleDownload_valid p env Hvalid).
  rewrite (download_body_fetch_rejected p env e Hfetch).
  repeat split.
  intros clock k q.
  cbn [starting connecting download_catch try_catch app run].
  cbn [apply_effect with_toast with_consoleLines with_downloadState
       consoleLines].
  rewrite addConsoleLine_entry, last_snoc.
  replace (S (S (S (S (S (S k)))))) with (k + 6) by lia.
  reflexivity.
Qed.

Lemma request_failure_witness :
  let p := setInputValue "https://youtu.be/clip" initialPage in
  let env := mkEnv 0 (inl (mkError "")) "" in
  toasts_shown (handleDownload p env)
  = [ mkToast "ERROR.DOWNLOAD_FAILED" "Failed to process download request"
        (Some "destructive") ].
Proof.
  intros p env.
  destruct (request_failure p env (mkError "") eq_refl eq_refl)
    as (_ & _ & Htoast & _).
  exact Htoast.
Defined.

(** X11.  When reading the body fails (the [blob] promise rejects), the
    submission has already shown downloading 50 and 70; it then ends in
    the error state with the message of the rejection, and nothing is
    saved. *)
Theorem body_read_failure (p : Page) (env : Env) (r : Response) (e : Error) :
  snd (validateInput p) = true ->
  fetch_result env = inr r ->
  response_ok r = true ->
  blob_result r = inl e ->
  states_set (handleDownload p env)
  = [ mkDownloadState processing 0 "INITIALIZING_CONNECTION..." None None;
      mkDownloadState processing 20 "ESTABLISHING_SECURE_CONNECTION..."
        None None;
      mkDownloadState downloading 50 "EXTRACTING_MEDIA_STREAM..." None None;
      mkDownloadState downloading 70 "STREAMING_DATA..." None None;
      mkDownloadState error 0 ("ERROR: " ++ error_message e) None None ]
  /\ files_saved (handleDownload p env) = []
  /\ forall clock k q,
       last (consoleLines (run clock k (handleDownload p env) q)) ""
       = "[" ++ clock (k + 10) ++ "] " ++ "> ERROR: " ++ error_message e.
Proof.
  intros Hvalid Hfetch Hok Hblob.
  rewrite (handleDownload_valid p env Hvalid).
  rewrite (download_body_blob_rejected p env r e Hfetch Hok Hblob).
  repeat split.
  intros clock k q.
  cbn [starting connecting streaming download_catch try_catch app run].
  cbn [apply_effect with_toast with_consoleLines with_downloadState
       consoleLines].
  rewrite addConsoleLine_entry, last_snoc.
  replace (S (S (S (S (S (S (S (S (S (S k)))))))))) with (k + 10) by lia.
  reflexivity.
Qed.

Lemma body_read_failure_witness :
  let r := mkResponse 200 None None (inl (mkError "network error")) in
  let env := mkEnv 0 (inr r) "" in
  let p := setInputValue "https://youtu.be/clip" initialPage in
  last (consoleLines (submit env (fun _ => "12:00:00") p)) ""
  = "[12:00:00] > ERROR: network error".
Proof.
  intros r env p.
  destruct (body_read_failure p env r (mkError "network error")
              eq_refl eq_refl eq_refl eq_refl) as (_ & _ & Hlog).
  exact (Hlog (fun _ => "12:00:00") 0 p).
Defined.

(* ================================================================== *)
(** ** A submission in flight *)
(* ================================================================== *)

Lemma run_selection clock es : forall k q,
  platform (run clock k es q) = platform q
  /\ downloadType (run clock k es q) = downloadType q
  /\ inputValue (run clock k es q) = inputValue q.
Proof.
  induction es as [|e es IH]; intros k q; [repeat split|].
  cbn [run]. destruct (IH (S k) (apply_effect (clock k) e q)) as (-> & -> & ->).
  apply apply_effect_selection.
Qed.

(** Decides the state of the controls after the first [n] of an explicit
    list of effects have landed, for each [n] in turn. *)
Ltac by_landing n :=
  do 16 (destruct n as [|n];
         [ intros; try lia; unfold controls_disabled;
           rewrite downloadState_run; reflexivity |]);
  intros; try lia; unfold controls_disabled;
  rewrite downloadState_run; reflexivity.

(** X12.  The effect that sets the final state of a valid submission is
    its 8th when the request fails or the response is not [ok], and its
    12th otherwise.  After each effect before that one has landed, from the
    first on, the input and the download button are disabled; from that
    effect on they are enabled.  Nothing else is assumed to touch the page
    meanwhile. *)
Theorem controls_disabled_in_flight (p : Page) (env : Env)
    (clock : nat -> string) (k : nat) (q : Page) :
  snd (validateInput p) = true ->
  let es := handleDownload p env in
  let t :=
    match fetch_result env with
    | inr r => if response_ok r then 12 else 8
    | inl _ => 8
    end in
  t <= length es
  /\ (exists d,
        nth_error es (t - 1) = Some (SetDownloadState d)
        /\ last (states_set es) (downloadState q) = d
        /\ (status d = complete \/ status d = error))
  /\ (forall n, 1 <= n -> n < t ->
        controls_disabled (run clock k (firstn n es) q) = true)
  /\ (forall n, t <= n ->
        controls_disabled (run clock k (firstn n es) q) = false).
Proof.
  intros Hvalid es t. subst es t.
  destruct (handleDownload_shape p env Hvalid)
    as [(e & -> & Hwhy)|[(r & e & -> & Hfetch & Hok & _)
                        |(r & size & -> & Hfetch & Hok & _)]];
    cbn [starting connecting streaming finishing download_catch app length].
  - assert (Ht : match fetch_result env with
                 | inr r => if response_ok r then 12 else 8
                 | inl _ => 8
                 end = 8).
    { destruct Hwhy as [->|(r & -> & -> & _)]; reflexivity. }
    rewrite Ht. split; [lia|]. split; [eexists; cbn; eauto|].
    split; intros n; by_landing n.
  - rewrite Hfetch, Hok. split; [lia|]. split; [eexists; cbn; eauto|].
    split; intros n; by_landing n.
  - rewrite Hfetch, Hok. split; [lia|]. split; [eexists; cbn; eauto|].
    split; intros n; by_landing n.
Qed.

Lemma controls_disabled_in_flight_witness :
  let r := mkResponse 200 (Some clip_disposition) None (inr 2097152%N) in
  let env := mkEnv 1700000000000 (inr r) "" in
  let p := setInputValue "https://youtu.be/clip" initialPage in
  let clock := fun _ : nat => "12:00:00" in
  (forall n, 1 <= n -> n < 12 ->
     controls_disabled (run clock 0 (firstn n (handleDownload p env)) p)
     = true)
  /\ (forall n, 12 <= n ->
     controls_disabled (run clock 0 (firstn n (handleDownload p env)) p)
     = false).
Proof.
  intros r env p clock.
  destruct (controls_disabled_in_flight p env clock 0 p eq_refl)
    as (_ & _ & Hbusy & Hfree).
  split; [exact Hbusy|exact Hfree].
Defined.

(** X13.  A reset does not cancel a submission in flight.  The reset button is
    on the page as soon as the first effect of a submission has landed.  If
    the submission is going to succeed and the reset lands before the
    complete state is set, the remaining effects still land afterwards: the
    page ends in the complete state, with the input text cleared by the
    reset. *)
Theorem reset_does_not_cancel (p : Page) (env : Env) (r : Response)
    (size : N) (n : nat) :
  snd (validateInput p) = true ->
  fetch_result env = inr r ->
  response_ok r = true ->
  blob_result r = inr size ->
  (1024 <= size)%N ->
  n <= 11 ->
  forall clock k k' q,
    let es := handleDownload p env in
    let final :=
      run clock k' (skipn n es) (resetState (run clock k (firstn n es) q)) in
    (1 <= n -> reset_shown (run clock k (firstn n es) q) = true)
    /\ downloadState final
       = mkDownloadState complete 100 "DOWNLOAD.COMPLETE" None
           (Some (resolve_filename (platform p) (downloadType p)
                    (Date_now env) (Content_Disposition r)))
    /\ inputValue final = "".
Proof.
  intros Hvalid Hfetch Hok Hblob Hsize Hn clock k k' q es final.
  subst final es.
  assert (Hbig : (size <? 1024)%N = false) by (apply N.ltb_ge; exact Hsize).
  rewrite (handleDownload_valid p env Hvalid).
  rewrite (download_body_complete p env r size Hfetch Hok Hblob Hbig).
  cbn [starting connecting streaming finishing try_catch app].
  split; [|split].
  - unfold reset_shown. rewrite downloadState_run.
    do 12 (destruct n as [|n]; [intros; try lia; reflexivity|]). lia.
  - rewrite downloadState_run.
    do 12 (destruct n as [|n]; [reflexivity|]). lia.
  - match goal with
    | |- inputValue (run ?c ?j ?l ?s) = _ =>
        destruct (run_selection c l j s) as (_ & _ & ->)
    end.
    reflexivity.
Qed.

Lemma reset_does_not_cancel_witness :
  let r := mkResponse 200 (Some clip_disposition) None (inr 2097152%N) in
  let env := mkEnv 1700000000000 (inr r) "" in
  let p := setInputValue "https://youtu.be/clip" initialPage in
  let es := handleDownload p env in
  let clock := fun _ : nat => "12:00:00" in
  downloadState
    (run clock 6 (skipn 6 es) (resetState (run clock 0 (firstn 6 es) p)))
  = mkDownloadState complete 100 "DOWNLOAD.COMPLETE" None (Some "clip.mp4").
Proof.
  intros r env p es clock.
  destruct (reset_does_not_cancel p env r 2097152 6
              eq_refl eq_refl eq_refl eq_refl ltac:(lia) ltac:(lia)
              clock 0 6 p) as (_ & Hstate & _).
  exact Hstate.
Defined.

(* ================================================================== *)
(** ** The console during a submission *)
(* ================================================================== *)

Lemma consoleLines_run clock es : forall k q,
  consoleLines (run clock k es q)
  = log_after (lines_logged clock k es) (consoleLines q).
Proof.
  induction es as [|e es IH]; intros k q; [reflexivity|].
  cbn [run]. rewrite IH. destruct e; reflexivity.
Qed.

(** X14.  The console after a valid submission has landed on a page whose
    console is within its bound: the last eleven of the old lines followed
    by the lines of the submission, of which there are four to seven.  On a
    page with an empty console, as after a reset, every line of the
    submission is therefore still there at the end. *)
Theorem submission_lines_kept (p : Page) (env : Env)
    (clock : nat -> string) (k : nat) (q : Page) :
  snd (validateInput p) = true ->
  length (consoleLines q) <= 11 ->
  let written := map entry (lines_logged clock k (handleDownload p env)) in
  let final := run clock k (handleDownload p env) q in
  consoleLines final = slice_last 11 (consoleLines q ++ written)
  /\ 4 <= length written <= 7
  /\ (consoleLines q = [] -> consoleLines final = written).
Proof.
  intros Hvalid Hbound written final.
  assert (Hlog : consoleLines final
                 = slice_last 11 (consoleLines q ++ written)).
  { subst final written. rewrite consoleLines_run.
    rewrite <- (slice_last_short 11 (consoleLines q) Hbound) at 1.
    apply log_after_window. }
  assert (Hcount : 4 <= length written <= 7).
  { subst written. rewrite length_map.
    destruct (handleDownload_shape p env Hvalid)
      as [(e & -> & _)|[(r & e & -> & _)|(r & size & -> & _)]];
      cbn; lia. }
  repeat split; trivial; try apply Hcount.
  intros Hempty. rewrite Hlog, Hempty. cbn [app].
  apply slice_last_short. lia.
Qed.

Lemma submission_lines_kept_witness :
  let r := mkResponse 200 (Some clip_disposition) None (inr 2097152%N) in
  let env := mkEnv 1700000000000 (inr r) "" in
  let p := setInputValue "https://youtu.be/clip" initialPage in
  length (consoleLines (submit env (fun _ => "12:00:00") p)) = 7.
Proof.
  intros r env p.
  destruct (submission_lines_kept p env (fun _ => "12:00:00") 0 p
              eq_refl ltac:(cbn; lia)) as (_ & _ & Hkept).
  unfold submit. rewrite (Hkept eq_refl). reflexivity.
Defined.

(* ================================================================== *)
(** ** More on file names *)
(* ================================================================== *)

(** X15.  The resolved file name always contains a full stop: a name that has
    none gets the extension of the mode. *)
Theorem resolved_name_has_stop (pf : Platform) (t : DownloadType) (now : Z)
    (contentDisposition : option string) :
  includes (resolve_filename pf t now contentDisposition) "." = true.
Proof.
  unfold resolve_filename.
  destruct (includes (chosen_filename pf t now contentDisposition) ".")
    eqn:Hstop; cbn [negb]; [exact Hstop|].
  rewrite includes_stop_app, Hstop. now destruct t.
Qed.

Lemma prefix_app w b : String.prefix w (w ++ b) = true.
Proof.
  induction w as [|c w IH]; cbn; [apply prefix_empty|].
  destruct (ascii_dec c c); [exact IH|congruence].
Qed.

Lemma includes_middle a g b : includes (a ++ g ++ b) g = true.
Proof.
  apply includes_app_r.
  destruct g as [|c g]; [now destruct b|].
  cbn [String.append includes].
  change (String c (g ++ b)) with (String c g ++ b).
  now rewrite prefix_app.
Qed.

Lemma take_class_spec s :
  all_in_class (take_class s) = true
  /\ exists rest, s = take_class s ++ rest.
Proof.
  induction s as [|c s (IHall & rest & IHrest)]; cbn [take_class].
  - split; [reflexivity|now exists ""].
  - destruct (in_class c) eqn:Hc.
    + split; [cbn; now rewrite Hc|].
      exists rest. cbn. now rewrite <- IHrest.
    + split; [reflexivity|]. now exists (String c s).
Qed.

Lemma string_drop_spec n : forall s, exists skipped, s = skipped ++ string_drop n s.
Proof.
  induction n as [|n IH]; intros s; [now exists ""|].
  destruct s as [|c s]; [now exists ""|].
  destruct (IH s) as (skipped & Hs).
  exists (String c skipped). cbn. now rewrite <- Hs.
Qed.

Lemma append_assoc a b c : (a ++ b) ++ c = a ++ b ++ c.
Proof. induction a; cbn; [reflexivity|now rewrite IHa]. Qed.

Lemma match_here_spec s group :
  match_here s = Some group ->
  all_in_class group = true /\ exists a b, s = a ++ group ++ b.
Proof.
  unfold match_here.
  destruct (String.prefix "filename=" s); [|discriminate].
  destruct (string_drop_spec 9 s) as (skipped & Hs).
  destruct (string_drop 9 s) as [|c rest] eqn:Hdrop.
  - cbn. discriminate.
  - destruct (Ascii.eqb c dquote).
    + destruct (take_class_spec rest) as (Hall & tail & Htail).
      destruct (take_class rest) eqn:Hrun; [discriminate|].
      intros [= <-]. split; [exact Hall|].
      exists (skipped ++ String c ""), tail.
      rewrite Hs, Htail, append_assoc. reflexivity.
    + destruct (take_class_spec (String c rest)) as (Hall & tail & Htail).
      destruct (take_class (String c rest)) eqn:Hrun; [discriminate|].
      intros [= <-]. split; [exact Hall|].
      exists skipped, tail. rewrite Hs, Htail. reflexivity.
Qed.

(** X16.  A name taken from the header is a non-empty piece of the header that
    holds no double quote, no semicolon and no line feed. *)
Theorem header_name_is_clean (header group : string) :
  filename_match header = Some group ->
  1 <= String.length group
  /\ all_in_class group = true
  /\ includes header group = true.
Proof.
  intros Hmatch. split; [eapply filename_match_nonempty; eassumption|].
  enough (Hspec : all_in_class group = true
                  /\ exists a b, header = a ++ group ++ b).
  { destruct Hspec as (Hall & a & b & ->). split; [exact Hall|].
    apply includes_middle. }
  revert Hmatch.
  induction header as [|c header IH]; cbn [filename_match].
  - destruct (match_here "") eqn:Hhere; [|discriminate].
    intros [= <-]. now apply match_here_spec.
  - destruct (match_here (String c header)) eqn:Hhere.
    + intros [= <-]. now apply match_here_spec.
    + intros Hrest. destruct (IH Hrest) as (Hall & a & b & ->).
      split; [exact Hall|]. now exists (String c a), b.
Qed.

Lemma header_name_is_clean_witness :
  all_in_class "clip.mp4" = true /\ includes clip_disposition "clip.mp4" = true.
Proof.
  destruct (header_name_is_clean clip_disposition "clip.mp4" eq_refl)
    as (_ & Hall & Hin).
  split; [exact Hall|exact Hin].
Defined.

(** One more character of a text compared with [filename=]: the text ends
    there, or the character differs, or the comparison goes on. *)
Ltac straddle_step s :=
  destruct s as [|? s]; cbn [String.append String.prefix];
  match goal with
  | |- context [ascii_dec ?a ?b] =>
      let E := fresh in
      let H := fresh in
      destruct (ascii_dec a b) as [E|];
      [ try discriminate E; try subst | intros H; discriminate H ]
  end.

(** [filename=] cannot begin inside a text and end in a following
    [filename=]. *)
Lemma no_straddle s tail :
  s <> "" ->
  String.prefix "filename=" (s ++ "filename=" ++ tail) = true ->
  String.prefix "filename=" s = true.
Proof.
  intros Hs. destruct s as [|c s]; [contradiction|]. clear Hs.
  cbn [String.append String.prefix].
  destruct (ascii_dec "f" c) as [<-|]; [|intros H; discriminate H].
  do 8 straddle_step s.
  intros _. apply prefix_empty.
Qed.

Lemma filename_match_skips pre tail :
  includes pre "filename=" = false ->
  filename_match (pre ++ "filename=" ++ tail)
  = filename_match ("filename=" ++ tail).
Proof.
  induction pre as [|c pre IH]; intros Hnone; [reflexivity|].
  cbn [includes] in Hnone. apply orb_false_iff in Hnone.
  destruct Hnone as [Hhere Hlater].
  change ((String c pre) ++ "filename=" ++ tail)
    with (String c (pre ++ "filename=" ++ tail)).
  cbn [filename_match].
  assert (Hno : match_here (String c (pre ++ "filename=" ++ tail)) = None).
  { unfold match_here.
    destruct (String.prefix "filename=" (String c (pre ++ "filename=" ++ tail)))
      eqn:Hpre; [|reflexivity].
    apply (no_straddle (String c pre) tail) in Hpre; [congruence|discriminate]. }
  rewrite Hno. now apply IH.
Qed.

Lemma take_class_run name rest :
  all_in_class name = true -> ends_class_run rest = true ->
  take_class (name ++ rest) = name.
Proof.
  intros Hname Hrest. induction name as [|c name IH].
  - destruct rest as [|c rest]; [reflexivity|].
    cbn in *. now destruct (in_class c).
  - cbn in *. apply andb_true_iff in Hname. destruct Hname as [-> Hname].
    now rewrite IH.
Qed.

(** X17.  The name is read back from a header: when [filename=], with or without
    an opening quote, is followed by a non-empty name free of quotes,
    semicolons and line feeds, the name ends where the header ends or such
    a character comes, and no [filename=] occurs earlier in the header,
    then that name is the one chosen, whatever comes before or after. *)
Theorem header_name_read_back (pf : Platform) (t : DownloadType) (now : Z)
    (pre name rest : string) (quoted : bool) :
  includes pre "filename=" = false ->
  1 <= String.length name ->
  all_in_class name = true ->
  ends_class_run rest = true ->
  let opening := if quoted then String dquote "" else "" in
  let header := pre ++ "filename=" ++ opening ++ name ++ rest in
  filename_match header = Some name
  /\ chosen_filename pf t now (Some header) = name.
Proof.
  intros Hpre Hlen Hname Hrest opening header.
  assert (Hmatch : filename_match header = Some name).
  { subst header. rewrite (filename_match_skips pre _ Hpre).
    assert (Hhere : match_here ("filename=" ++ opening ++ name ++ rest)
                    = Some name).
    { unfold match_here. cbn [String.append String.prefix string_drop].
      cbn. subst opening.
      destruct name as [|c name]; [cbn in Hlen; lia|].
      assert (Hc : Ascii.eqb c dquote = false).
      { cbn in Hname. apply andb_true_iff in Hname.
        destruct Hname as [Hc _]. unfold in_class in Hc.
        destruct (Ascii.eqb c dquote); [discriminate|reflexivity]. }
      destruct quoted; cbn [String.append];
        [rewrite Ascii.eqb_refl|rewrite Hc];
        change (String c (name ++ rest)) with (String c name ++ rest);
        rewrite (take_class_run _ _ Hname Hrest); reflexivity. }
    cbn [String.append filename_match].
    cbn [String.append] in Hhere. now rewrite Hhere. }
  split; [exact Hmatch|].
  unfold chosen_filename. rewrite Hmatch.
  destruct (header =? "") eqn:Hempty; [|reflexivity].
  apply String.eqb_eq in Hempty. rewrite Hempty in Hmatch.
  discriminate Hmatch.
Qed.

Lemma header_name_read_back_witness :
  chosen_filename youtube video 0
    (Some ("inline; " ++ "filename=" ++ "" ++ "my song.mp3" ++ "; size=3"))
  = "my song.mp3".
Proof.
  destruct (header_name_read_back youtube video 0
              "inline; " "my song.mp3" "; size=3" false
              eq_refl ltac:(cbn; lia) eq_refl eq_refl) as [_ Hchosen].
  exact Hchosen.
Defined.

(* ================================================================== *)
(** ** The echo of the input *)
(* ================================================================== *)

Lemma slice0_short n : forall s, String.length s <= n -> slice0 n s = s.
Proof.
  unfold slice0. induction n as [|n IH]; intros [|c s] Hlen; cbn in *;
    try reflexivity; try lia.
  rewrite IH by lia. reflexivity.
Qed.

Lemma slice0_length n : forall s,
  String.length (slice0 n s) = Nat.min n (String.length s).
Proof.
  unfold slice0. induction n as [|n IH]; intros [|c s]; cbn;
    try reflexivity.
  now rewrite IH.
Qed.

Lemma slice0_prefix n : forall s, String.prefix (slice0 n s) s = true.
Proof.
  unfold slice0. induction n as [|n IH]; intros [|c s]; cbn;
    try reflexivity; try apply prefix_empty.
  destruct (ascii_dec c c); [apply IH|congruence].
Qed.

(** X18.  The second console line of a valid submission echoes the input text:
    whole when it has at most 50 characters, and otherwise its first 50
    characters followed by three full stops, 53 characters in all. *)
Theorem target_line_echo (p : Page) (env : Env) :
  snd (validateInput p) = true ->
  let input := inputValue p in
  nth_error (handleDownload p env) 2
  = Some (AddConsoleLine ("> TARGET: " ++ target_echo input))
  /\ (String.length input <= 50 -> target_echo input = input)
  /\ (50 < String.length input ->
      exists head,
        target_echo input = head ++ "..."
        /\ String.length head = 50
        /\ String.prefix head input = true)
  /\ String.length (target_echo input) <= 53.
Proof.
  intros Hvalid input.
  split; [|split; [|split]].
  - rewrite (handleDownload_valid p env Hvalid). reflexivity.
  - intros Hshort. unfold target_echo.
    rewrite slice0_short by exact Hshort.
    apply Nat.ltb_ge in Hshort. rewrite Hshort.
    clear. induction input; cbn; [reflexivity|now f_equal].
  - intros Hlong. exists (slice0 50 input). unfold target_echo.
    pose proof (slice0_length 50 input) as Hlen.
    apply Nat.ltb_lt in Hlong as Hlt. rewrite Hlt.
    repeat split; [lia|apply slice0_prefix].
  - unfold target_echo. rewrite length_append, slice0_length.
    destruct (50 <? String.length input)%nat; cbn [String.length]; lia.
Qed.

Lemma target_line_echo_witness :
  let input :=
    "https://www.youtube.com/watch?v=dQw4w9WgXcQ&list=PL1234567890" in
  let p := setInputValue input initialPage in
  nth_error (handleDownload p (mkEnv 0 (inl (mkError "offline")) "")) 2
  = Some (AddConsoleLine
            "> TARGET: https://www.youtube.com/watch?v=dQw4w9WgXcQ&list=P...").
Proof.
  intros input p.
  destruct (target_line_echo p (mkEnv 0 (inl (mkError "offline")) "") eq_refl)
    as [Hline _].
  exact Hline.
Defined.

(* ================================================================== *)
(** ** How shallow the validation is *)
(* ================================================================== *)

Lemma whitespace_only_app a b :
  whitespace_only (a ++ b) = whitespace_only a && whitespace_only b.
Proof.
  induction a as [|c a IH]; cbn; [reflexivity|].
  now rewrite IH, andb_assoc.
Qed.

Lemma prefix_app_l w s b :
  String.prefix w s = true -> String.prefix w (s ++ b) = true.
Proof.
  revert s. induction w as [|c w IH]; intros s Hpre; [apply prefix_empty|].
  destruct s as [|c' s]; [discriminate Hpre|].
  cbn [String.append String.prefix] in *.
  destruct (ascii_dec c c'); [now apply IH|discriminate Hpre].
Qed.

Lemma includes_app_l s b word :
  includes s word = true -> includes (s ++ b) word = true.
Proof.
  induction s as [|c s IH]; intros Hin.
  - cbn in Hin. rewrite orb_false_r in Hin.
    destruct word; [|discriminate Hin].
    destruct b; reflexivity.
  - cbn [includes] in Hin. apply orb_true_iff in Hin.
    cbn [String.append includes]. apply orb_true_iff.
    destruct Hin as [Hhere|Hlater].
    + left. now apply (prefix_app_l word (String c s) b).
    + right. now apply IH.
Qed.

(** X19.  Validation looks for a substring and at nothing else: a text that is
    accepted stays accepted whatever is written before and after it. *)
Theorem validation_ignores_surroundings (p : Page) (before after : string) :
  snd (validateInput p) = true ->
  snd (validateInput
         (setInputValue (before ++ inputValue p ++ after) p)) = true.
Proof.
  unfold validateInput. cbn [inputValue platform downloadType setInputValue].
  rewrite !trim_eqb_empty, !whitespace_only_app.
  destruct (whitespace_only (inputValue p)) eqn:Hblank;
    [intros H; discriminate H|].
  rewrite andb_false_r. cbn [andb].
  destruct (downloadType p); cbn [DownloadType_eqb negb];
    try reflexivity;
    destruct (platform p); cbn [Platform_eqb andb];
    match goal with
    | |- context [includes (inputValue p) ?w] =>
        destruct (includes (inputValue p) w) eqn:Hin;
        [|intros H; discriminate H];
        rewrite (includes_app_r before _ w
                   (includes_app_l (inputValue p) after w Hin))
    end; reflexivity.
Qed.

Lemma validation_ignores_surroundings_witness :
  snd (validateInput
         (setInputValue ("not a url, but " ++ "youtu" ++ " is in it")
            initialPage)) = true.
Proof.
  exact (validation_ignores_surroundings
           (setInputValue "youtu" initialPage)
           "not a url, but " " is in it" eq_refl).
Defined.
